(** * human-history: the timeline's calendar arithmetic, scales, zoom and filter

    A shallow embedding of [src/script.ts] and of its later revision with the
    year filter and the URL parameters.

    A JavaScript [number] is read as an exact rational.  On the dates a
    timeline draws this is what the doubles compute: a quantity the calendar
    code floors is either exact as a double or stays at least 1/306001 away
    from every whole number, far more than the rounding of the operations
    before the floor.  [Binary64] repeats the two conversions on IEEE 754
    doubles, and the two readings are compared on a sample of years and of
    times of day.  Where the program divides by a quantity that can be zero
    (the tooltip) the quotient is read in the rationals extended with [NaN]
    and the two infinities.

    The zoom listener compares and subtracts numbers that do round, so what
    its clamp guarantees is stated on doubles, in [Binary64Zoom]. *)

From Stdlib Require Import ZArith QArith Qround Qminmax.
From Stdlib Require Floats Uint63.
From Stdlib Require Import List String Ascii Bool DecimalString.
From Stdlib Require Import Lia Lqa.
Import ListNotations.

Local Open Scope Q_scope.

(** ** JavaScript numbers and strings *)

(** [Math.floor]. *)
Definition Math_floor (x : Q) : Q := inject_Z (Qfloor x).

(** [x < y] on numbers. *)
Definition Qltb (x y : Q) : bool := negb (Qle_bool y x).

(** [String(n)] for an integral number. *)
Definition String_of (n : Z) : string := NilZero.string_of_int (Z.to_int n).

(** [a[i]]: [undefined] (here [None]) outside the array. *)
Definition array_get {A : Type} (a : list A) (i : Z) : option A :=
  if (i <? 0)%Z then None else nth_error a (Z.to_nat i).

(** A value spliced into a template literal. *)
Definition interpolate (s : option string) : string :=
  match s with
  | Some s => s
  | None => "undefined"
  end.

(** ** Calendar converter *)

(** [DateType]: the three fields are the whole numbers of the event files. *)
Record DateType : Set := mkDate { year : Z; month : Z; day : Z }.

Definition dateToNumber (date : DateType) : Q :=
  let y := inject_Z (year date) in
  let m := inject_Z (month date) in
  let d := inject_Z (day date) in
  let '(y, m) := if Qle_bool m 2 then (y - 1, m + 12) else (y, m) in
  let A := Math_floor (y / 100) in
  let B := if Qltb y 0 then 0 else 2 - A + Math_floor (A / 4) in
  Math_floor (365.25 * (y + 4716)) +
  Math_floor (30.6001 * (m + 1)) +
  d + B - 1524.5.

(** The locals of [numberToDate] just before the three final floors. *)
Record Unrounded : Set := mkUnrounded { uF : Q; uYear : Q; uMonth : Q; uDay : Q }.

Definition numberToDate_locals (jd : Q) : Unrounded :=
  let J := jd + 0.5 in
  let Z := Math_floor J in
  let F := J - Z in
  let A :=
    if Qltb Z 2299161 then Z
    else
      let alpha := Math_floor ((Z - 1867216.25) / 36524.25) in
      Z + 1 + alpha - Math_floor (alpha / 4) in
  let B := A + 1524 in
  let C := Math_floor ((B - 122.1) / 365.25) in
  let D := Math_floor (365.25 * C) in
  let E := Math_floor ((B - D) / 30.6001) in
  let day := B - D - Math_floor (30.6001 * E) + F in
  let month := if Qltb E 14 then E - 1 else E - 13 in
  let year := if Qltb 2 month then C - 4716 else C - 4715 in
  mkUnrounded F year month day.

Definition numberToDate (jd : Q) : DateType :=
  let u := numberToDate_locals jd in
  {| year := Qfloor (uYear u);
     month := Qfloor (uMonth u);
     day := Qfloor (uDay u) |}.

Definition monthNames : list string :=
  ["Jan"; "Feb"; "Mar"; "Apr"; "May"; "Jun";
   "Jul"; "Aug"; "Sep"; "Oct"; "Nov"; "Dec"]%string.

Definition formatDate (date : DateType) : string :=
  let monthStr := array_get monthNames (month date - 1) in
  let yearStr :=
    if (year date <? 0)%Z
    then (String_of (Z.abs (year date)) ++ " BCE")%string
    else (String_of (year date) ++ " CE")%string in
  (String_of (day date) ++ " " ++ interpolate monthStr ++ " " ++ yearStr)%string.

(** ** Events, their ordinals and the year filter *)

Definition EventCategory : Set := string.

Record EventType : Set := mkEvent {
  date : DateType;
  name : string;
  type : EventCategory;
  description : string;
  sources : list string;
  dateValue : option Q   (* [dateValue?: number] *)
}.

Definition processEventData (events : list EventType) : list EventType :=
  map (fun event =>
         {| date := date event; name := name event; type := type event;
            description := description event; sources := sources event;
            dateValue := Some (dateToNumber (date event)) |})
      events.

(** [startYear] and [endYear] are [number | null]. *)
Definition filterEvents (events : list EventType)
    (startYear endYear : option Z) : list EventType :=
  filter (fun event =>
            let eventYear := year (date event) in
            let include := true in
            let include :=
              match startYear with
              | Some s => if (eventYear <? s)%Z then false else include
              | None => include
              end in
            let include :=
              match endYear with
              | Some e => if (e <? eventYear)%Z then false else include
              | None => include
              end in
            include)
         events.

(** ** The parts of d3 the timeline calls

    Modelled from the library's documented behaviour (d3-array, d3-scale and
    d3-zoom are dependencies, not part of the repository); only the x
    component of a zoom transform is kept, since the timeline rescales x
    alone. *)

Module d3.

(** [d3.extent(values, valueof)]: [undefined] values are skipped; the result
    is [[undefined, undefined]] when nothing is left. *)
Fixpoint extent_from (acc : option (Q * Q)) (values : list (option Q))
    : option (Q * Q) :=
  match values with
  | [] => acc
  | None :: rest => extent_from acc rest
  | Some v :: rest =>
      match acc with
      | None => extent_from (Some (v, v)) rest
      | Some (lo, hi) =>
          extent_from
            (Some (if Qltb v lo then v else lo, if Qltb hi v then v else hi))
            rest
      end
  end.

Definition extent {A : Type} (values : list A) (valueof : A -> option Q)
    : option Q * option Q :=
  match extent_from None (map valueof values) with
  | Some (lo, hi) => (Some lo, Some hi)
  | None => (None, None)
  end.

(** [d3.scaleLinear().domain([d0, d1]).range([r0, r1])]. *)
Record ScaleLinear : Set := mkLinear { domain : Q * Q; range : Q * Q }.

(** [d3.scalePoint] and [d3.scaleOrdinal], as configured. *)
Record ScalePoint : Set := mkPoint { pdomain : list string; prange : Q * Q }.
Record ScaleOrdinal : Set :=
  mkOrdinal { odomain : list string; orange : list (option string) }.

Definition normalize (a b x : Q) : Q :=
  if Qeq_bool (b - a) 0 then 0.5 else (x - a) / (b - a).

Definition interpolateNumber (a b t : Q) : Q := a * (1 - t) + b * t.

(** [scale(v)] and [scale.invert(p)] of an unclamped linear scale. *)
Definition bimap (dom rng : Q * Q) (v : Q) : Q :=
  let '(d0, d1) := dom in
  let '(r0, r1) := rng in
  if Qltb d1 d0
  then interpolateNumber r1 r0 (normalize d1 d0 v)
  else interpolateNumber r0 r1 (normalize d0 d1 v).

Definition apply (s : ScaleLinear) (v : Q) : Q := bimap (domain s) (range s) v.
Definition invert (s : ScaleLinear) (p : Q) : Q := bimap (range s) (domain s) p.

(** A zoom transform: [k] the scale factor, [x] the translation. *)
Record Transform : Set := mkTransform { k : Q; x : Q }.

Definition zoomIdentity : Transform := mkTransform 1 0.

(** [transform.scale(k)] and [transform.translate(tx)]. *)
Definition Transform_scale (t : Transform) (f : Q) : Transform :=
  mkTransform (k t * f) (x t).
Definition Transform_translate (t : Transform) (tx : Q) : Transform :=
  mkTransform (k t) (x t + k t * tx).

Definition invertX (t : Transform) (px : Q) : Q := (px - x t) / k t.

(** [transform.rescaleX(scale)]. *)
Definition rescaleX (t : Transform) (s : ScaleLinear) : ScaleLinear :=
  let '(r0, r1) := range s in
  mkLinear (invert s (invertX t r0), invert s (invertX t r1)) (range s).

(** The zoom behaviour's settings ([scaleExtent], and the x sides of
    [translateExtent] and [extent]). *)
Record ZoomBehavior : Set := mkZoom {
  scaleExtent : Q * Q;
  translateExtent : Q * Q;
  viewExtent : Q * Q
}.

(** d3-zoom's [scale], [translate] and default [constrain]. *)
Definition scale (z : ZoomBehavior) (t : Transform) (k1 : Q) : Transform :=
  mkTransform (Qmax (fst (scaleExtent z)) (Qmin (snd (scaleExtent z)) k1)) (x t).

Definition translate (t : Transform) (p0 p1 : Q) : Transform :=
  mkTransform (k t) (p0 - p1 * k t).

Definition constrain (z : ZoomBehavior) (t : Transform) : Transform :=
  let dx0 := invertX t (fst (viewExtent z)) - fst (translateExtent z) in
  let dx1 := invertX t (snd (viewExtent z)) - snd (translateExtent z) in
  Transform_translate t
    (if Qltb dx0 dx1 then (dx0 + dx1) / 2
     else if Qeq_bool (Qmin 0 dx0) 0 then Qmax 0 dx1 else Qmin 0 dx0).

(** [zoom.scaleTo] about the point [p], and [zoom.scaleBy] about the centre
    of the view (end state of the transition). *)
Definition scaleTo (z : ZoomBehavior) (t0 : Transform) (k1 p0 : Q) : Transform :=
  constrain z (translate (scale z t0 k1) p0 (invertX t0 p0)).

Definition centroid (z : ZoomBehavior) : Q :=
  (fst (viewExtent z) + snd (viewExtent z)) / 2.

Definition scaleBy (z : ZoomBehavior) (t0 : Transform) (f : Q) : Transform :=
  scaleTo z t0 (k t0 * f) (centroid z).

(** A drag from [p0] that keeps the point [p1] of the content under the
    pointer. *)
Definition drag (z : ZoomBehavior) (t0 : Transform) (p0 p1 : Q) : Transform :=
  constrain z (translate t0 p0 p1).

(** [zoom.transform(selection, t)] sets [t] as it is: the scale extent and
    the translate extent are not enforced on it. *)
Definition transform (z : ZoomBehavior) (t : Transform) : Transform := t.

End d3.

(** ** Axis/scale builder *)

Module CONFIG.
Definition margin_top : Q := 50.
Definition margin_right : Q := 50.
Definition margin_bottom : Q := 50.
Definition margin_left : Q := 100.
Definition width : Q := 1000.
Definition height : Q := 400.
Definition dayStart : Q := 0.
Definition dayEnd : Q := 24 * 60.
End CONFIG.

(** A call either returns or throws [new Error(message)]. *)
Inductive Result (A : Type) : Type :=
| Return (value : A)
| Throw (message : string).
Arguments Return {A} value.
Arguments Throw {A} message.

Record Scales : Set := mkScales {
  x : d3.ScaleLinear;
  categoryScale : d3.ScalePoint;
  colorScale : d3.ScaleOrdinal;
  xDay : d3.ScaleLinear
}.

(** [!v] for [v : number | undefined]: true on [undefined] and on [0]. *)
Definition not_ (v : option Q) : bool :=
  match v with
  | None => true
  | Some q => Qeq_bool q 0
  end.

(** [colors[category]], the object given by its key/value pairs. *)
Definition object_get (o : list (string * string)) (key : string) : option string :=
  option_map snd (find (fun p => String.eqb (fst p) key) o).

Definition setupScales (events : list EventType) (width height : Q)
    (categories : list string) (colors : list (string * string)) : Result Scales :=
  let xExtent := d3.extent events dateValue in
  if not_ (fst xExtent) || not_ (snd xExtent)
  then Throw "Invalid data for x-axis extent."
  else
    match xExtent with
    | (Some lo, Some hi) =>
        Return {|
          x := d3.mkLinear (lo, hi) (0, width);
          categoryScale := d3.mkPoint categories (50, height - 50);
          colorScale := d3.mkOrdinal categories (map (object_get colors) categories);
          xDay := d3.mkLinear (lo, hi) (CONFIG.dayStart, CONFIG.dayEnd)
        |}
    | _ => Throw "Invalid data for x-axis extent."
    end.

(** The first revision's guard: [xExtent[0] === undefined || xExtent[1] === undefined]. *)
Definition extent_undefined (xExtent : option Q * option Q) : bool :=
  match xExtent with
  | (Some _, Some _) => false
  | _ => true
  end.

(** ** Tooltip: the synthetic time in day *)

(** Numbers with the values a division can add to the rationals. *)
Inductive Number : Set :=
| Fin (q : Q)
| Infinity
| NegInfinity
| NaN.

Definition of_optional (v : option Q) : Number :=
  match v with
  | Some q => Fin q
  | None => NaN            (* [undefined] in arithmetic *)
  end.

Definition Nsub (a b : Number) : Number :=
  match a, b with
  | NaN, _ | _, NaN => NaN
  | Fin p, Fin q => Fin (p - q)
  | Infinity, Infinity | NegInfinity, NegInfinity => NaN
  | Infinity, _ | _, NegInfinity => Infinity
  | NegInfinity, _ | _, Infinity => NegInfinity
  end.

(** The sign of a number that is neither zero nor [NaN]: [true] when negative. *)
Definition negative (a : Number) : bool :=
  match a with
  | Fin q => Qltb q 0
  | NegInfinity => true
  | _ => false
  end.

Definition signed_infinity (neg : bool) : Number :=
  if neg then NegInfinity else Infinity.

Definition is_zero (a : Number) : bool :=
  match a with
  | Fin q => Qeq_bool q 0
  | _ => false
  end.

Definition Nmul (a b : Number) : Number :=
  match a, b with
  | NaN, _ | _, NaN => NaN
  | Fin p, Fin q => Fin (p * q)
  | _, _ =>
      if is_zero a || is_zero b then NaN
      else signed_infinity (xorb (negative a) (negative b))
  end.

(** A difference of two doubles that is zero is [+0], so the sign of
    [a / 0] is the sign of [a]. *)
Definition Ndiv (a b : Number) : Number :=
  match a, b with
  | NaN, _ | _, NaN => NaN
  | Fin p, Fin q =>
      if Qeq_bool q 0
      then if Qeq_bool p 0 then NaN else signed_infinity (Qltb p 0)
      else Fin (p / q)
  | Fin _, _ => Fin 0
  | _, Fin _ => signed_infinity (xorb (negative a) (negative b))
  | _, _ => NaN
  end.

(** [a % b]: the remainder has the sign of the dividend. *)
Definition Nrem (a b : Number) : Number :=
  match a, b with
  | Fin p, Fin q =>
      if Qeq_bool q 0 then NaN
      else Fin (p - q * inject_Z (Z.quot (Qnum (p / q)) (Zpos (Qden (p / q)))))
  | Fin p, (Infinity | NegInfinity) => Fin p
  | _, _ => NaN
  end.

Definition Nfloor (a : Number) : Number :=
  match a with
  | Fin q => Fin (Math_floor q)
  | other => other
  end.

(** [String(a)], for [a] integral or not finite. *)
Definition Number_toString (a : Number) : string :=
  match a with
  | Fin q => String_of (Qfloor q)
  | Infinity => "Infinity"
  | NegInfinity => "-Infinity"
  | NaN => "NaN"
  end.

(** [s.padStart(2, '0')]. *)
Definition padStart2 (s : string) : string :=
  match String.length s with
  | O => "00"
  | S O => ("0" ++ s)%string
  | _ => s
  end.

Record TimeInDay : Set := mkTimeInDay {
  minutesInDay : Number;
  hours : Number;
  minutes : Number;
  timeInDay : string
}.

(** The arithmetic of [showInfo]; the rest of the handler writes the tooltip. *)
Definition showInfo (minDateValue maxDateValue : Q) (d : EventType) : TimeInDay :=
  let timeSinceStart := Nsub (of_optional (dateValue d)) (Fin minDateValue) in
  let totalTimeSpan := Fin (maxDateValue - minDateValue) in
  let minutesInDay :=
    Nmul (Ndiv timeSinceStart totalTimeSpan)
         (Fin (CONFIG.dayEnd - CONFIG.dayStart)) in
  let hours := Nfloor (Ndiv minutesInDay (Fin 60)) in
  let minutes := Nfloor (Nrem minutesInDay (Fin 60)) in
  mkTimeInDay minutesInDay hours minutes
    (padStart2 (Number_toString hours) ++ ":" ++
     padStart2 (Number_toString minutes))%string.

(** ** Viewport/zoom controller *)

(** What a zoom event leaves behind: the committed transform, the rescaled
    and clamped x scale, and the zoom-level readout. *)
Record View : Set := mkView {
  currentZoom : d3.Transform;
  newX : d3.ScaleLinear;
  zoomLevel : string
}.

(** [Math.round(v)] followed by the percent sign. *)
Definition percentage (v : Q) : string :=
  (String_of (Qfloor (v + 0.5)) ++ "%")%string.

(** The ["zoom"] listener. *)
Definition zoomed (x : d3.ScaleLinear) (minDateValue maxDateValue : Q)
    (transform : d3.Transform) : View :=
  let newX := d3.rescaleX transform x in
  let newDomain := d3.domain newX in
  let newDomain :=
    if Qltb (fst newDomain) minDateValue then
      let shift := minDateValue - fst newDomain in
      (minDateValue, snd newDomain + shift)
    else newDomain in
  let newDomain :=
    if Qltb maxDateValue (snd newDomain) then
      let shift := snd newDomain - maxDateValue in
      (fst newDomain - shift, maxDateValue)
    else newDomain in
  mkView transform (d3.mkLinear newDomain (d3.range newX))
         (percentage (d3.k transform * 100)).

(** [d3.zoom().scaleExtent([1, 1000]).translateExtent(..).extent(..)]. *)
Definition createZoom (width : Q) : d3.ZoomBehavior :=
  d3.mkZoom (1, 1000) (0, width) (0, width).

(** The view before any zoom event. *)
Definition initialView (x : d3.ScaleLinear) : View :=
  mkView d3.zoomIdentity x "100%".

(** What the user can do to the chart: press [-] or [+], turn the wheel by a
    factor about a point, or drag. *)
Inductive Gesture : Set :=
| MinusButton
| PlusButton
| Wheel (factor point : Q)
| Drag (p0 p1 : Q).

(** [zoomBy(factor)]. *)
Definition zoomBy (zoom : d3.ZoomBehavior) (t : d3.Transform) (factor : Q) : d3.Transform :=
  d3.scaleBy zoom t factor.

(** The transform d3 proposes for a gesture, from the one it holds. *)
Definition proposed (zoom : d3.ZoomBehavior) (t : d3.Transform) (g : Gesture)
    : d3.Transform :=
  match g with
  | MinusButton => zoomBy zoom t 0.5
  | PlusButton => zoomBy zoom t 2
  | Wheel factor point => d3.scaleTo zoom t (d3.k t * factor) point
  | Drag p0 p1 => d3.drag zoom t p0 p1
  end.

Definition on_gesture (zoom : d3.ZoomBehavior) (x : d3.ScaleLinear)
    (minDateValue maxDateValue : Q) (v : View) (g : Gesture) : View :=
  zoomed x minDateValue maxDateValue (proposed zoom (currentZoom v) g).

(** The later revision: [currentZoom] starts from the [zoom] query parameter
    ([parseFloat] of it, when present) and is applied with [zoom.transform]. *)
Definition queryZoom (zoom : option Q) : d3.Transform :=
  match zoom with
  | Some z => d3.Transform_scale d3.zoomIdentity z
  | None => d3.Transform_scale d3.zoomIdentity 1
  end.

Definition initialViewFromQuery (zoomBehavior : d3.ZoomBehavior)
    (x : d3.ScaleLinear) (minDateValue maxDateValue : Q) (zoom : option Q) : View :=
  zoomed x minDateValue maxDateValue (d3.transform zoomBehavior (queryZoom zoom)).

(** ** Vocabulary of the properties *)

(** A year is a leap year in the calendar the conversion follows: every
    fourth year before year 0 (no Gregorian correction there), and the
    Gregorian rule from year 0 on. *)
Definition leapYear (y : Z) : bool :=
  if (y <? 0)%Z then (y mod 4 =? 0)%Z
  else ((y mod 4 =? 0) && (negb (y mod 100 =? 0) || (y mod 400 =? 0)))%Z.

(** The proleptic Gregorian rule on every year. *)
Definition gregorianLeapYear (y : Z) : bool :=
  ((y mod 4 =? 0) && (negb (y mod 100 =? 0) || (y mod 400 =? 0)))%Z.

Definition daysInMonth (leap : bool) (m : Z) : Z :=
  if (m =? 2)%Z then (if leap then 29 else 28)%Z
  else if ((m =? 4) || (m =? 6) || (m =? 9) || (m =? 11))%Z then 30%Z
  else 31%Z.

Definition validDate (d : DateType) : Prop :=
  (1 <= month d <= 12 /\
   1 <= day d <= daysInMonth (leapYear (year d)) (month d))%Z.

Definition gregorianDate (d : DateType) : Prop :=
  (1 <= month d <= 12 /\
   1 <= day d <= daysInMonth (gregorianLeapYear (year d)) (month d))%Z.




(** A number on the grid of 1/1024 of a day, at most 2^40 days from 0: the
    ordinals of the dates are on it, and so are the whole numbers.  On the
    grid the sum [jd + 0.5], the residual [F] and the day [numberToDate]
    floors are exact in binary64. *)
Definition onGrid (jd : Q) : bool :=
  Qeq_bool (inject_Z (Qfloor (jd * 1024))) (jd * 1024)
  && (Z.abs (Qfloor (jd * 1024)) <=? 2 ^ 50)%Z.


(** The year bounds of the filter, as the property words them. *)
Definition withinYears (startYear endYear : option Z) (y : Z) : bool :=
  match startYear with Some s => (s <=? y)%Z | None => true end &&
  match endYear with Some e => (y <=? e)%Z | None => true end.

(** The visible domain lies inside the base domain. *)
Definition clamped (domainMin domainMax : Q) (s : d3.ScaleLinear) : Prop :=
  domainMin <= fst (d3.domain s) /\
  fst (d3.domain s) <= snd (d3.domain s) /\
  snd (d3.domain s) <= domainMax.

(** The view after a sequence of zoom events, each delivering a transform. *)
Definition after_events (x : d3.ScaleLinear) (minDateValue maxDateValue : Q)
    (transforms : list d3.Transform) : View :=
  fold_left (fun _ t => zoomed x minDateValue maxDateValue t)
            transforms (initialView x).

(** The view after a sequence of gestures. *)
Definition after_gestures (zoom : d3.ZoomBehavior) (x : d3.ScaleLinear)
    (minDateValue maxDateValue : Q) (start : View) (gestures : list Gesture) : View :=
  fold_left (on_gesture zoom x minDateValue maxDateValue) gestures start.

(** The running extent is a pair in order. *)
Definition ordered (acc : option (Q * Q)) : Prop :=
  match acc with
  | Some (lo, hi) => lo <= hi
  | None => True
  end.

(** The whole days counted by [dateToNumber], over the integers. *)
Definition dayNumber (date : DateType) : Z :=
  let '(y, m) :=
    if (month date <=? 2)%Z then (year date - 1, month date + 12)%Z
    else (year date, month date) in
  let A := (y / 100)%Z in
  let B := if (y <? 0)%Z then 0%Z else (2 - A + A / 4)%Z in
  (1461 * (y + 4716) / 4 + 306001 * (m + 1) / 10000 + day date + B)%Z.

(** [numberToDate] over the integers, for the whole number
    [n = floor (jd + 0.5)]: the local [A], and the date read off it. *)
Definition julianDay (n : Z) : Z :=
  if (n <? 2299161)%Z then n
  else
    let alpha := ((4 * n - 7468865) / 146097)%Z in
    (n + 1 + alpha - alpha / 4)%Z.

Definition dateOfJulianDay (A : Z) : DateType :=
  let B := (A + 1524)%Z in
  let C := ((20 * B - 2442) / 7305)%Z in
  let D := (1461 * C / 4)%Z in
  let E := (10000 * (B - D) / 306001)%Z in
  let day := (B - D - 306001 * E / 10000)%Z in
  let month := if (E <? 14)%Z then (E - 1)%Z else (E - 13)%Z in
  let year := if (2 <? month)%Z then (C - 4716)%Z else (C - 4715)%Z in
  mkDate year month day.

Definition dateOfDayNumber (n : Z) : DateType :=
  dateOfJulianDay (julianDay n).

(** The year and month [dateToNumber] computes with (January and February
    count as months 13 and 14 of the year before), the day number at which
    such a year starts, and the offset of a month within it. *)
Definition shiftedYear (date : DateType) : Z :=
  if (month date <=? 2)%Z then (year date - 1)%Z else year date.

Definition shiftedMonth (date : DateType) : Z :=
  if (month date <=? 2)%Z then (month date + 12)%Z else month date.

Definition yearStart (y : Z) : Z :=
  (1461 * (y + 4716) / 4
   + (if (y <? 0)%Z then 0 else 2 - y / 100 + y / 100 / 4))%Z.

Definition monthStart (m : Z) : Z := (306001 * (m + 1) / 10000)%Z.

(** ** The calendar converter in binary64

    The same two functions over IEEE 754 doubles, the numbers the program
    runs on; they are evaluated below at the dates the properties single
    out, as a check on reading numbers as rationals. *)

#[local] Set Warnings "-inexact-float".

Module Binary64.

Import Floats.
Local Open Scope float_scope.

Definition two52 : float := 4503599627370496.

(** [Math.floor]: below 2^52 in magnitude, round to a whole number by adding
    and removing 2^52 and step down when that rounded up; from 2^52 on every
    double is whole. *)
Definition Math_floor (v : float) : float :=
  if PrimFloat.abs v <? two52 then
    let r := if v <? 0 then (v - two52) + two52 else (v + two52) - two52 in
    if v <? r then r - 1 else r
  else v.

(** An integer field read from JSON. *)
Definition of_Z (z : Z) : float :=
  match z with
  | Z0 => 0
  | Zpos _ => PrimFloat.of_uint63 (Uint63.of_Z z)
  | Zneg p => - PrimFloat.of_uint63 (Uint63.of_Z (Zpos p))
  end.

Definition dateToNumber (date : DateType) : float :=
  let y := of_Z (year date) in
  let m := of_Z (month date) in
  let d := of_Z (day date) in
  let '(y, m) := if m <=? 2 then (y - 1, m + 12) else (y, m) in
  let A := Math_floor (y / 100) in
  let B := if y <? 0 then 0 else 2 - A + Math_floor (A / 4) in
  Math_floor (365.25 * (y + 4716)) +
  Math_floor (30.6001 * (m + 1)) +
  d + B - 1524.5.

(** The fields [year], [month] and [day] of the result. *)
Definition numberToDate (jd : float) : float * float * float :=
  let J := jd + 0.5 in
  let Z := Math_floor J in
  let F := J - Z in
  let A :=
    if Z <? 2299161 then Z
    else
      let alpha := Math_floor ((Z - 1867216.25) / 36524.25) in
      Z + 1 + alpha - Math_floor (alpha / 4) in
  let B := A + 1524 in
  let C := Math_floor ((B - 122.1) / 365.25) in
  let D := Math_floor (365.25 * C) in
  let E := Math_floor ((B - D) / 30.6001) in
  let day := B - D - Math_floor (30.6001 * E) + F in
  let month := if E <? 14 then E - 1 else E - 13 in
  let year := if 2 <? month then C - 4716 else C - 4715 in
  (Math_floor year, Math_floor month, Math_floor day).

Definition fields (date : DateType) : float * float * float :=
  (of_Z (year date), of_Z (month date), of_Z (day date)).

(** The double computed for a date is the half-integer of the exact model,
    and the inverse on it gives the date of the exact model. *)
Definition agrees (date : DateType) : bool :=
  let jd := dateToNumber date in
  let '(y, m, d) := numberToDate jd in
  let '(y', m', d') := fields (dateOfDayNumber (dayNumber date - 1524)) in
  PrimFloat.eqb jd (of_Z (dayNumber date) - 1524.5)
  && PrimFloat.eqb y y' && PrimFloat.eqb m m' && PrimFloat.eqb d d'.

End Binary64.

(** The inverse conversion in binary64 on the number [n / 1024], set
    against the date of the exact model. *)
Definition gridAgrees (n : Z) : bool :=
  let jd := PrimFloat.div (Binary64.of_Z n) (Binary64.of_Z 1024) in
  let '(y, m, d) := Binary64.numberToDate jd in
  let '(y', m', d') := Binary64.fields (numberToDate (inject_Z n / 1024)) in
  PrimFloat.eqb y y' && PrimFloat.eqb m m' && PrimFloat.eqb d d'.

(** Times of day on days around the two cutovers, around JD 0 and at both
    ends of the grid. *)
Definition gridSample : list Z :=
  flat_map (fun day => map (fun time => (day * 1024 + time)%Z)
                           [0; 1; 511; 512; 513; 1023]%Z)
           [- 2 ^ 40; -1; 0; 1; 1721117; 1721118; 2299160; 2299161; 2451545;
            2 ^ 40 - 1]%Z.

(** ** The zoom controller in binary64

    The listener and the part of d3 it runs on, over IEEE 754 doubles: the
    clamp compares and subtracts rounded numbers, so what it guarantees is
    settled here. *)

Module Binary64Zoom.

Import Floats.
Local Open Scope float_scope.

(** A number is truthy unless it is a zero or NaN. *)
Definition truthy (v : float) : bool :=
  negb (PrimFloat.is_zero v || PrimFloat.is_nan v).

(** [Math.min] and [Math.max] of two numbers: NaN when either is, and -0
    below +0. *)
Definition Math_min (a b : float) : float :=
  if PrimFloat.is_nan a || PrimFloat.is_nan b then PrimFloat.nan
  else if a <? b then a
  else if b <? a then b
  else if PrimFloat.get_sign a then a else b.

Definition Math_max (a b : float) : float :=
  if PrimFloat.is_nan a || PrimFloat.is_nan b then PrimFloat.nan
  else if a <? b then b
  else if b <? a then a
  else if PrimFloat.get_sign a then b else a.

Record ScaleLinear : Set := mkLinear { domain : float * float; range : float * float }.

Definition normalize (a b x : float) : float :=
  let b := b - a in
  if truthy b then (x - a) / b
  else if PrimFloat.is_nan b then PrimFloat.nan else 0.5.

Definition interpolateNumber (a b t : float) : float := a * (1 - t) + b * t.

Definition bimap (dom rng : float * float) (v : float) : float :=
  let '(d0, d1) := dom in
  let '(r0, r1) := rng in
  if d1 <? d0
  then interpolateNumber r1 r0 (normalize d1 d0 v)
  else interpolateNumber r0 r1 (normalize d0 d1 v).

Definition invert (s : ScaleLinear) (p : float) : float :=
  bimap (range s) (domain s) p.

Record Transform : Set := mkTransform { k : float; x : float }.

Definition zoomIdentity : Transform := mkTransform 1 0.

Definition Transform_translate (t : Transform) (tx : float) : Transform :=
  mkTransform (k t) (x t + k t * tx).

Definition invertX (t : Transform) (px : float) : float := (px - x t) / k t.

Definition rescaleX (t : Transform) (s : ScaleLinear) : ScaleLinear :=
  let '(r0, r1) := range s in
  mkLinear (invert s (invertX t r0), invert s (invertX t r1)) (range s).

Record ZoomBehavior : Set := mkZoom {
  scaleExtent : float * float;
  translateExtent : float * float;
  viewExtent : float * float
}.

Definition scale (z : ZoomBehavior) (t : Transform) (k1 : float) : Transform :=
  mkTransform (Math_max (fst (scaleExtent z)) (Math_min (snd (scaleExtent z)) k1))
              (x t).

Definition translate (t : Transform) (p0 p1 : float) : Transform :=
  mkTransform (k t) (p0 - p1 * k t).

Definition constrain (z : ZoomBehavior) (t : Transform) : Transform :=
  let dx0 := invertX t (fst (viewExtent z)) - fst (translateExtent z) in
  let dx1 := invertX t (snd (viewExtent z)) - snd (translateExtent z) in
  Transform_translate t
    (if dx0 <? dx1 then (dx0 + dx1) / 2
     else if truthy (Math_min 0 dx0) then Math_min 0 dx0 else Math_max 0 dx1).

Definition scaleTo (z : ZoomBehavior) (t0 : Transform) (k1 p0 : float) : Transform :=
  constrain z (translate (scale z t0 k1) p0 (invertX t0 p0)).

Definition centroid (z : ZoomBehavior) : float :=
  (fst (viewExtent z) + snd (viewExtent z)) / 2.

Definition scaleBy (z : ZoomBehavior) (t0 : Transform) (f : float) : Transform :=
  scaleTo z t0 (k t0 * f) (centroid z).

Definition drag (z : ZoomBehavior) (t0 : Transform) (p0 p1 : float) : Transform :=
  constrain z (translate t0 p0 p1).

(** What the listener keeps: the transform and the clamped x scale. *)
Record View : Set := mkView { currentZoom : Transform; newX : ScaleLinear }.

(** The two shifts of the listener, in the order it makes them. *)
Definition shiftRight (minDateValue : float) (newDomain : float * float)
    : float * float :=
  if fst newDomain <? minDateValue then
    let shift := minDateValue - fst newDomain in
    (minDateValue, snd newDomain + shift)
  else newDomain.

Definition shiftLeft (maxDateValue : float) (newDomain : float * float)
    : float * float :=
  if maxDateValue <? snd newDomain then
    let shift := snd newDomain - maxDateValue in
    (fst newDomain - shift, maxDateValue)
  else newDomain.

(** The ["zoom"] listener. *)
Definition zoomed (x : ScaleLinear) (minDateValue maxDateValue : float)
    (transform : Transform) : View :=
  let newX := rescaleX transform x in
  let newDomain := domain newX in
  let newDomain := shiftRight minDateValue newDomain in
  let newDomain := shiftLeft maxDateValue newDomain in
  mkView transform (mkLinear newDomain (range newX)).

Definition createZoom (width : float) : ZoomBehavior :=
  mkZoom (1, 1000) (0, width) (0, width).

Definition initialView (x : ScaleLinear) : View := mkView zoomIdentity x.

(** The gestures: the wheel comes with the factor [2 ^ wheelDelta] it
    computed and the pointer position. *)
Inductive Gesture : Set :=
| MinusButton
| PlusButton
| Wheel (factor point : float)
| Drag (p0 p1 : float).

Definition proposed (zoom : ZoomBehavior) (t : Transform) (g : Gesture) : Transform :=
  match g with
  | MinusButton => scaleBy zoom t 0.5
  | PlusButton => scaleBy zoom t 2
  | Wheel factor point => scaleTo zoom t (k t * factor) point
  | Drag p0 p1 => drag zoom t p0 p1
  end.

Definition on_gesture (zoom : ZoomBehavior) (x : ScaleLinear)
    (minDateValue maxDateValue : float) (v : View) (g : Gesture) : View :=
  zoomed x minDateValue maxDateValue (proposed zoom (currentZoom v) g).

Definition after_gestures (zoom : ZoomBehavior) (x : ScaleLinear)
    (minDateValue maxDateValue : float) (start : View) (gestures : list Gesture)
    : View :=
  fold_left (on_gesture zoom x minDateValue maxDateValue) gestures start.

End Binary64Zoom.

(** The days 1..31 of the months 1..12 of a year. *)
Definition daysOfYear (y : Z) : list DateType :=
  flat_map (fun m => map (fun d => mkDate y (Z.of_nat m) (Z.of_nat d)) (seq 1 31))
           (seq 1 12).


(** ** Axes *)

(** An axis: the scale it draws and the text it writes at a tick. *)
Record Axis : Type := mkAxis { axis_scale : d3.ScaleLinear; tickFormat : Q -> string }.

(** [setupAxes]: the bottom axis writes the year of a tick, the top axis the
    synthetic time of day; both are drawn over [x]. *)
Definition setupAxes (x xDay : d3.ScaleLinear) : Axis * Axis :=
  let xAxis :=
    mkAxis x (fun d =>
      let date := numberToDate d in
      let year := year date in
      if (year <? 0)%Z
      then (String_of (Z.abs year) ++ " BCE")%string
      else (String_of year ++ " CE")%string) in
  let xAxisDay :=
    mkAxis x (fun d =>
      let minutesInDay := Fin (d3.apply xDay d) in
      let hours := Nfloor (Ndiv minutesInDay (Fin 60)) in
      let minutes := Nfloor (Nrem minutesInDay (Fin 60)) in
      (padStart2 (Number_toString hours) ++ ":" ++
       padStart2 (Number_toString minutes))%string) in
  (xAxis, xAxisDay).

(** ** Plot dimensions *)

(** [setupSVG]: the plot is the drawing less its margins. *)
Definition setupSVG : Q * Q :=
  (CONFIG.width - CONFIG.margin_left - CONFIG.margin_right,
   CONFIG.height - CONFIG.margin_top - CONFIG.margin_bottom).

(** The later revision sizes the drawing from the window. *)
Module Responsive.

Definition minWidth : Q := 800.
Definition minHeight : Q := 300.

(** What [calculateDimensions] reads: the [#timeline] element when there is
    one, with its parent's [clientWidth] when it has a parent, and
    [window.innerHeight]. *)
Record Window : Set := mkWindow {
  container : option (option Q);
  innerHeight : Q
}.

Definition calculateDimensions (w : Window) : Q * Q :=
  match container w with
  | None => (minWidth, minHeight)
  | Some None => (minWidth, minHeight)
  | Some (Some clientWidth) =>
      let padding := 40 in
      let availableWidth := clientWidth - padding in
      let availableHeight := innerHeight w * 0.7 in
      (Qmax minWidth availableWidth, Qmax minHeight availableHeight)
  end.

(** The plot sizes [setupSVG] and [handleResize] derive from them. *)
Definition plotSize (w : Window) : Q * Q :=
  let '(width, height) := calculateDimensions w in
  (width - CONFIG.margin_left - CONFIG.margin_right,
   height - CONFIG.margin_top - CONFIG.margin_bottom).

End Responsive.

(** ** Point and ordinal scales of d3 *)

Module d3_ordinal.

(** The domain setter keeps the first occurrence of each value. *)
Definition unique (values : list string) : list string :=
  fold_left (fun domain v =>
               if existsb (String.eqb v) domain then domain else domain ++ [v])
            values [].

Fixpoint index_of (d : string) (domain : list string) : option nat :=
  match domain with
  | [] => None
  | v :: rest =>
      if String.eqb v d then Some O else option_map S (index_of d rest)
  end.

(** [range[i % range.length]]. *)
Definition range_at {A : Type} (range : list A) (i : nat) : option A :=
  match List.length range with
  | O => None
  | n => nth_error range (i mod n)%nat
  end.

(** The positions of a point scale: a band scale with inner padding 1, outer
    padding 0 and alignment 0.5, not rounded. *)
Definition point_positions (s : d3.ScalePoint) : list Q :=
  let n := List.length (unique (d3.pdomain s)) in
  let '(r0, r1) := d3.prange s in
  let reverse := Qltb r1 r0 in
  let start := if reverse then r1 else r0 in
  let stop := if reverse then r0 else r1 in
  let count := inject_Z (Z.of_nat n) in
  let step := (stop - start) / Qmax 1 (count - 1 + 0 * 2) in
  let start := start + (stop - start - step * (count - 1)) * 0.5 in
  let values := map (fun i => start + step * inject_Z (Z.of_nat i)) (seq 0 n) in
  if reverse then rev values else values.

(** [scale(d)] of a point scale: [undefined] outside the domain. *)
Definition point (s : d3.ScalePoint) (d : string) : option Q :=
  match index_of d (unique (d3.pdomain s)) with
  | Some i => range_at (point_positions s) i
  | None => None
  end.

(** [scale(d)] of an ordinal scale with the implicit unknown: a value outside
    the domain is appended to it.  The entries of the range can themselves be
    [undefined]. *)
Definition ordinal (s : d3.ScaleOrdinal) (d : string)
    : option string * d3.ScaleOrdinal :=
  let domain := unique (d3.odomain s) in
  let at_ i := match range_at (d3.orange s) i with
               | Some colour => colour
               | None => None
               end in
  match index_of d domain with
  | Some i => (at_ i, s)
  | None => (at_ (List.length domain), d3.mkOrdinal (domain ++ [d]) (d3.orange s))
  end.

End d3_ordinal.

(** ** Event layout *)

Definition Nadd (a b : Number) : Number :=
  match a, b with
  | NaN, _ | _, NaN => NaN
  | Fin p, Fin q => Fin (p + q)
  | Infinity, NegInfinity | NegInfinity, Infinity => NaN
  | Infinity, _ | _, Infinity => Infinity
  | NegInfinity, _ | _, NegInfinity => NegInfinity
  end.

(** The attributes [updateEvents] gives the circle of an event. *)
Record Circle : Set := mkCircle { cx : Number; cy : Number; r : Q; fill : option string }.

Definition updateEvents (x : d3.ScaleLinear) (categoryScale : d3.ScalePoint)
    (colorScale : d3.ScaleOrdinal) (d : EventType) : Circle :=
  {| cx := match dateValue d with
           | Some v => Fin (d3.apply x v)
           | None => NaN
           end;
     cy := let baseY := of_optional (d3_ordinal.point categoryScale (type d)) in
           let monthOffset := ((inject_Z (month (date d)) - 6.5) / 12) * 50 in
           Nadd baseY (Fin monthOffset);
     r := 5;
     fill := fst (d3_ordinal.ordinal colorScale (type d)) |}.

(** ** Initialization *)

Record CategoryConfig : Set := mkConfig {
  category : string;
  color : string;
  file : string
}.

(** [{ ...acc, [key]: value }]. *)
Definition object_set (o : list (string * string)) (key value : string)
    : list (string * string) :=
  if existsb (fun p => String.eqb (fst p) key) o
  then map (fun p => if String.eqb (fst p) key then (key, value) else p) o
  else o ++ [(key, value)].

Definition categoriesOf (categoriesConfig : list CategoryConfig) : list string :=
  map category categoriesConfig.

Definition colorsOf (categoriesConfig : list CategoryConfig)
    : list (string * string) :=
  fold_left (fun acc c => object_set acc (category c) (color c))
            categoriesConfig [].

(** One entry of [loadEvents]: the events of a category file, each given the
    category of the manifest entry; no event when the file gave [null]. *)
Definition loadEvents (config : CategoryConfig) (events : option (list EventType))
    : list EventType :=
  match events with
  | Some events =>
      map (fun e =>
             {| date := date e; name := name e; type := category config;
                description := description e; sources := sources e;
                dateValue := dateValue e |})
          events
  | None => []
  end.

(** [eventsArrays.flat()], over the manifest entries with what their files
    gave. *)
Definition allEvents (loaded : list (CategoryConfig * option (list EventType)))
    : list EventType :=
  flat_map (fun entry => loadEvents (fst entry) (snd entry)) loaded.

(** The scales of the timeline, as the initialization builds them. *)
Definition timelineScales (loaded : list (CategoryConfig * option (list EventType)))
    : Result Scales :=
  let categoriesConfig := map fst loaded in
  let categories := categoriesOf categoriesConfig in
  let colors := colorsOf categoriesConfig in
  let processedEvents := processEventData (allEvents loaded) in
  let '(width, height) := setupSVG in
  setupScales processedEvents width height categories colors.

(** ** Resizing *)

(** What [handleResize] leaves behind: the scales with their new ranges, the
    zoom behaviour with its new extents, the plot size it returns and the
    centre it gives each circle. *)
Record Resized : Type := mkResized {
  resized_x : d3.ScaleLinear;
  resized_categoryScale : d3.ScalePoint;
  resized_zoom : d3.ZoomBehavior;
  plotWidth : Q;
  plotHeight : Q;
  centres : list (Number * Number)
}.

Definition handleResize (w : Responsive.Window) (x : d3.ScaleLinear)
    (categoryScale : d3.ScalePoint) (zoom : d3.ZoomBehavior)
    (events : list EventType) : Resized :=
  let '(width, height) := Responsive.calculateDimensions w in
  let plotWidth := width - CONFIG.margin_left - CONFIG.margin_right in
  let plotHeight := height - CONFIG.margin_top - CONFIG.margin_bottom in
  let x := d3.mkLinear (d3.domain x) (0, plotWidth) in
  let categoryScale := d3.mkPoint (d3.pdomain categoryScale) (50, plotHeight - 50) in
  let zoom := d3.mkZoom (d3.scaleExtent zoom) (0, plotWidth) (0, plotWidth) in
  mkResized x categoryScale zoom plotWidth plotHeight
    (map (fun d =>
            (match dateValue d with
             | Some v => Fin (d3.apply x v)
             | None => NaN
             end,
             let baseY := of_optional (d3_ordinal.point categoryScale (type d)) in
             let monthOffset := ((inject_Z (month (date d)) - 6.5) / 12) * 50 in
             Nadd baseY (Fin monthOffset)))
         events).


(** Two domains with equal ends. *)
Definition same_domain (a b : Q * Q) : Prop :=
  fst a == fst b /\ snd a == snd b.

(** The step and the first position of a point scale of [n] values over a
    range [r0 <= r1]. *)
Definition laneStep (n : nat) (r0 r1 : Q) : Q :=
  (r1 - r0) / Qmax 1 (inject_Z (Z.of_nat n) - 1 + 0 * 2).

Definition laneStart (n : nat) (r0 r1 : Q) : Q :=
  r0 + (r1 - r0 - laneStep n r0 r1 * (inject_Z (Z.of_nat n) - 1)) * 0.5.

(** * Properties *)

(** ** Comparisons and floors *)

Lemma Qltb_lt (a b : Q) : Qltb a b = true <-> a < b.
Proof.
  unfold Qltb. rewrite negb_true_iff, <- not_true_iff_false, Qle_bool_iff.
  split; [apply Qnot_le_lt | apply Qlt_not_le].
Qed.

Lemma Qltb_ge (a b : Q) : Qltb a b = false <-> b <= a.
Proof.
  unfold Qltb. rewrite negb_false_iff. apply Qle_bool_iff.
Qed.

Lemma Qltb_cases (a b : Q) :
  (a < b /\ Qltb a b = true) \/ (b <= a /\ Qltb a b = false).
Proof.
  destruct (Qltb a b) eqn:E.
  - left. split; [now apply Qltb_lt | reflexivity].
  - right. split; [now apply Qltb_ge | reflexivity].
Qed.

(** ** C3: the two fixed points *)

(** C3. The ordinal of 1 January 2000 is 2451544.5, and 15 March of year -44
    is rendered as "15 Mar 44 BCE". *)
Theorem known_fixed_points :
  dateToNumber (mkDate 2000 1 1) == 2451544.5 /\
  formatDate (mkDate (-44) 3 15) = "15 Mar 44 BCE"%string.
Proof.
  split.
  - vm_compute. reflexivity.
  - vm_compute. reflexivity.
Qed.

(** ** C4: formatting *)

Lemma month_name_exists (m : Z) :
  (1 <= m <= 12)%Z ->
  exists abbrev,
    array_get monthNames (m - 1) = Some abbrev /\ String.length abbrev = 3%nat.
Proof.
  intros Hm.
  assert (Hcases : (m = 1 \/ m = 2 \/ m = 3 \/ m = 4 \/ m = 5 \/ m = 6 \/
                    m = 7 \/ m = 8 \/ m = 9 \/ m = 10 \/ m = 11 \/ m = 12)%Z)
    by lia.
  repeat (destruct Hcases as [-> | Hcases]); try subst m;
    (eexists; split; [reflexivity | reflexivity]).
Qed.

(** C4, as the code has it. For a month in 1..12 the date is rendered as
    "<day> <MonthAbbrev> <|year|> <era>", the abbreviation being the entry
    [month - 1] of the fixed table of three-letter names; the era is BCE for
    every negative year and CE for year 0 and every positive year. *)
Theorem formatDate_rendering (d : DateType) :
  (1 <= month d <= 12)%Z ->
  exists abbrev,
    array_get monthNames (month d - 1) = Some abbrev /\
    String.length abbrev = 3%nat /\
    formatDate d =
      (String_of (day d) ++ " " ++ abbrev ++ " " ++ String_of (Z.abs (year d))
       ++ " " ++ (if (year d <? 0)%Z then "BCE" else "CE"))%string.
Proof.
  intros Hm.
  destruct (month_name_exists (month d) Hm) as (abbrev & Hget & Hlen).
  exists abbrev. split; [exact Hget | split; [exact Hlen |]].
  unfold formatDate. rewrite Hget. cbn [interpolate].
  destruct (Z.ltb_spec (year d) 0) as [Hneg | Hpos].
  - reflexivity.
  - rewrite Z.abs_eq by exact Hpos. reflexivity.
Qed.

Lemma formatDate_rendering_witness :
  (1 <= 3 <= 12)%Z /\
  exists abbrev,
    array_get monthNames (3 - 1) = Some abbrev /\
    String.length abbrev = 3%nat /\
    formatDate (mkDate 0 3 15) =
      (String_of 15 ++ " " ++ abbrev ++ " " ++ String_of (Z.abs 0)
       ++ " " ++ "CE")%string.
Proof.
  split; [lia | apply (formatDate_rendering (mkDate 0 3 15)); cbn; lia].
Defined.

(** C4, as stated, fails at year 0, which is rendered with the era CE. *)
Lemma formatDate_year_zero_is_CE :
  formatDate (mkDate 0 1 1) = "1 Jan 0 CE"%string /\
  formatDate (mkDate 0 1 1) <> "1 Jan 0 BCE"%string.
Proof.
  split; [reflexivity | discriminate].
Qed.


(** ** The calendar arithmetic over the integers *)

Lemma inject_Z_minus (a b : Z) : inject_Z (a - b) = inject_Z a - inject_Z b.
Proof.
  unfold Z.sub. rewrite inject_Z_plus, inject_Z_opp. reflexivity.
Qed.

Lemma Qle_bool_inject (a b : Z) : Qle_bool (inject_Z a) (inject_Z b) = (a <=? b)%Z.
Proof.
  unfold Qle_bool. cbn. now rewrite !Z.mul_1_r.
Qed.

Lemma Qltb_inject (a b : Z) : Qltb (inject_Z a) (inject_Z b) = (a <? b)%Z.
Proof.
  unfold Qltb. rewrite Qle_bool_inject. symmetry. apply Z.ltb_antisym.
Qed.

Lemma Qltb_comp (a a' b b' : Q) : a == a' -> b == b' -> Qltb a b = Qltb a' b'.
Proof.
  intros Ha Hb. unfold Qltb. now rewrite Ha, Hb.
Qed.

(** A floor of a quotient of integers is the integer quotient. *)
Lemma floor_ratio (q : Q) (n : Z) (d : positive) :
  q == inject_Z n / inject_Z (Zpos d) ->
  Math_floor q = inject_Z (n / Zpos d).
Proof.
  intros Hq. unfold Math_floor. f_equal.
  rewrite (Qfloor_comp _ _ Hq). symmetry. apply Zdiv_Qdiv.
Qed.

Ltac push_inject :=
  repeat first [ rewrite inject_Z_plus | rewrite inject_Z_minus
               | rewrite inject_Z_mult | rewrite inject_Z_opp ].

(** [dateToNumber] is its whole day number less 1524.5. *)
Lemma dateToNumber_dayNumber (d : DateType) :
  dateToNumber d == inject_Z (dayNumber d) - 1524.5.
Proof.
  unfold dateToNumber, dayNumber.
  change 2 with (inject_Z 2) at 1. rewrite Qle_bool_inject.
  destruct (month d <=? 2)%Z.
  - rewrite (Qltb_comp (inject_Z (year d) - 1) (inject_Z (year d - 1)) 0 (inject_Z 0))
      by (push_inject; reflexivity).
    rewrite Qltb_inject.
    rewrite (floor_ratio ((inject_Z (year d) - 1) / 100) (year d - 1) 100)
      by (push_inject; reflexivity).
    rewrite (floor_ratio (365.25 * (inject_Z (year d) - 1 + 4716))
                         (1461 * (year d - 1 + 4716)) 4)
      by (push_inject; unfold inject_Z; field).
    rewrite (floor_ratio (30.6001 * (inject_Z (month d) + 12 + 1))
                         (306001 * (month d + 12 + 1)) 10000)
      by (push_inject; unfold inject_Z; field).
    destruct (year d - 1 <? 0)%Z.
    + push_inject. ring.
    + rewrite (floor_ratio (inject_Z ((year d - 1) / 100) / 4)
                           ((year d - 1) / 100) 4)
        by reflexivity.
      push_inject. ring.
  - change 0 with (inject_Z 0) at 1. rewrite Qltb_inject.
    rewrite (floor_ratio (inject_Z (year d) / 100) (year d) 100)
      by reflexivity.
    rewrite (floor_ratio (365.25 * (inject_Z (year d) + 4716))
                         (1461 * (year d + 4716)) 4)
      by (push_inject; unfold inject_Z; field).
    rewrite (floor_ratio (30.6001 * (inject_Z (month d) + 1))
                         (306001 * (month d + 1)) 10000)
      by (push_inject; unfold inject_Z; field).
    destruct (year d <? 0)%Z.
    + push_inject. ring.
    + rewrite (floor_ratio (inject_Z (year d / 100) / 4) (year d / 100) 4)
        by reflexivity.
      push_inject. ring.
Qed.

Ltac floor_step n d :=
  match goal with
  | |- context [Math_floor ?q] =>
      rewrite (floor_ratio q n d)
        by (push_inject; unfold inject_Z; field)
  end.

(** On a half-integer, the locals of [numberToDate] are whole numbers: the
    fields of [dateOfDayNumber], with residual [F = 0]. *)
Lemma numberToDate_locals_dayNumber (jd : Q) (n : Z) :
  jd + 0.5 == inject_Z n ->
  let u := numberToDate_locals jd in
  let r := dateOfDayNumber n in
  uF u == 0 /\
  uYear u == inject_Z (year r) /\
  uMonth u == inject_Z (month r) /\
  uDay u == inject_Z (day r).
Proof.
  intros HJ.
  assert (HZ : Math_floor (jd + 0.5) = inject_Z n).
  { unfold Math_floor. now rewrite (Qfloor_comp _ _ HJ), Qfloor_Z. }
  unfold numberToDate_locals, dateOfDayNumber, dateOfJulianDay, julianDay.
  cbv zeta.
  cbn [uF uYear uMonth uDay year month day].
  rewrite HZ.
  change 2299161 with (inject_Z 2299161). rewrite Qltb_inject.
  set (alpha := ((4 * n - 7468865) / 146097)%Z).
  set (Az := if (n <? 2299161)%Z then n else (n + 1 + alpha - alpha / 4)%Z).
  assert (HA : exists Aq,
             Aq == inject_Z Az /\
             (if (n <? 2299161)%Z then inject_Z n
              else inject_Z n + 1
                   + Math_floor ((inject_Z n - 1867216.25) / 36524.25)
                   - Math_floor
                       (Math_floor ((inject_Z n - 1867216.25) / 36524.25) / 4))
             = Aq).
  { eexists. split; [| reflexivity]. subst Az.
    destruct (n <? 2299161)%Z; [reflexivity |].
    floor_step (4 * n - 7468865)%Z 146097%positive. fold alpha.
    floor_step alpha 4%positive.
    push_inject. reflexivity. }
  destruct HA as (Aq & HA & ->).
  set (Cz := ((20 * (Az + 1524) - 2442) / 7305)%Z).
  rewrite (floor_ratio ((Aq + 1524 - 122.1) / 365.25) (20 * (Az + 1524) - 2442) 7305)
    by (rewrite HA; push_inject; unfold inject_Z; field).
  fold Cz.
  floor_step (1461 * Cz)%Z 4%positive.
  set (Dz := (1461 * Cz / 4)%Z).
  rewrite (floor_ratio ((Aq + 1524 - inject_Z Dz) / 30.6001)
                       (10000 * (Az + 1524 - Dz)) 306001)
    by (rewrite HA; push_inject; unfold inject_Z; field).
  set (Ez := (10000 * (Az + 1524 - Dz) / 306001)%Z).
  floor_step (306001 * Ez)%Z 10000%positive.
  change 14 with (inject_Z 14). rewrite Qltb_inject.
  assert (HF : jd + 0.5 - inject_Z n == 0) by (rewrite HJ; ring).
  split; [exact HF |].
  destruct (Ez <? 14)%Z.
  - rewrite (Qltb_comp 2 (inject_Z 2) (inject_Z Ez - 1) (inject_Z (Ez - 1)))
      by (push_inject; reflexivity).
    rewrite Qltb_inject.
    split; [| split].
    + destruct (2 <? Ez - 1)%Z; push_inject; reflexivity.
    + push_inject; reflexivity.
    + rewrite HF, HA. push_inject. ring.
  - rewrite (Qltb_comp 2 (inject_Z 2) (inject_Z Ez - 13) (inject_Z (Ez - 13)))
      by (push_inject; reflexivity).
    rewrite Qltb_inject.
    split; [| split].
    + destruct (2 <? Ez - 13)%Z; push_inject; reflexivity.
    + push_inject; reflexivity.
    + rewrite HF, HA. push_inject. ring.
Qed.

(** [numberToDate] on a half-integer, over the integers. *)
Lemma numberToDate_dayNumber (jd : Q) (n : Z) :
  jd + 0.5 == inject_Z n -> numberToDate jd = dateOfDayNumber n.
Proof.
  intros HJ.
  destruct (numberToDate_locals_dayNumber jd n HJ) as (_ & Hy & Hm & Hd).
  cbv zeta in Hy, Hm, Hd. unfold numberToDate.
  rewrite (Qfloor_comp _ _ Hy), (Qfloor_comp _ _ Hm), (Qfloor_comp _ _ Hd).
  rewrite !Qfloor_Z. now destruct (dateOfDayNumber n).
Qed.

(** The round trip, over the integers. *)
Lemma roundtrip_dayNumber (d : DateType) :
  numberToDate (dateToNumber d) = dateOfDayNumber (dayNumber d - 1524).
Proof.
  apply numberToDate_dayNumber.
  rewrite dateToNumber_dayNumber. push_inject. unfold inject_Z. ring.
Qed.

(** ** C9: ordinals are half-integers *)

(** C9. The ordinal of a date is a half-integer: its fractional part is 0.5,
    so [J = jd + 0.5] is a whole number, the residual [F] of the inverse is
    0 and the day it recovers is a whole number before the final floor. *)
Theorem dateToNumber_half_integer (d : DateType) :
  let jd := dateToNumber d in
  let u := numberToDate_locals jd in
  jd - Math_floor jd == 0.5 /\
  Math_floor (jd + 0.5) == jd + 0.5 /\
  uF u == 0 /\
  uDay u == inject_Z (day (numberToDate jd)).
Proof.
  cbv zeta.
  pose proof (dateToNumber_dayNumber d) as Hjd.
  set (N := dayNumber d) in *.
  assert (HJ : dateToNumber d + 0.5 == inject_Z (N - 1524)).
  { rewrite Hjd. push_inject. unfold inject_Z. ring. }
  destruct (numberToDate_locals_dayNumber _ _ HJ) as (HF & _ & _ & Hd).
  cbv zeta in HF, Hd.
  split; [| split; [| split]].
  - rewrite (floor_ratio (dateToNumber d) (2 * N - 3049) 2)
      by (rewrite Hjd; push_inject; unfold inject_Z; field).
    replace ((2 * N - 3049) / 2)%Z with (N - 1525)%Z
      by (Z.div_mod_to_equations; lia).
    rewrite Hjd. push_inject. unfold inject_Z. ring.
  - unfold Math_floor. rewrite (Qfloor_comp _ _ HJ), Qfloor_Z.
    symmetry. exact HJ.
  - exact HF.
  - rewrite (numberToDate_dayNumber _ _ HJ). exact Hd.
Qed.

(** ** C2: the forward conversion is strictly increasing *)

Local Open Scope Z_scope.

Lemma dayNumber_split (d : DateType) :
  dayNumber d = yearStart (shiftedYear d) + monthStart (shiftedMonth d) + day d.
Proof.
  unfold dayNumber, yearStart, monthStart, shiftedYear, shiftedMonth.
  destruct (month d <=? 2); lia.
Qed.



Lemma month_cases (m : Z) :
  1 <= m <= 12 ->
  m = 1 \/ m = 2 \/ m = 3 \/ m = 4 \/ m = 5 \/ m = 6 \/
  m = 7 \/ m = 8 \/ m = 9 \/ m = 10 \/ m = 11 \/ m = 12.
Proof. lia. Qed.

(** Where a valid date lies within its year of the conversion. *)
Lemma day_in_year (d : DateType) :
  validDate d ->
  let m := shiftedMonth d in
  3 <= m <= 14 /\
  monthStart m + 1 <= monthStart m + day d /\
  (m < 14 -> monthStart m + day d <= monthStart (m + 1)) /\
  (m = 14 ->
   monthStart m + day d <= 487 + (if leapYear (year d) then 1 else 0)) /\
  123 <= monthStart m + day d <= 487 + (if leapYear (shiftedYear d + 1) then 1 else 0).
Proof.
  intros [Hm Hd]. unfold shiftedMonth, shiftedYear. cbv zeta.
  destruct (month_cases _ Hm) as
    [E | [E | [E | [E | [E | [E | [E | [E | [E | [E | [E | E]]]]]]]]]]];
    rewrite E in *; cbn in Hd; cbn -[Z.add Z.sub Z.mul Z.div leapYear];
    try replace (year d - 1 + 1) with (year d) by lia;
    destruct (leapYear (year d)); try destruct (leapYear (year d + 1));
    cbn in Hd; cbn -[Z.add Z.sub Z.mul Z.div]; unfold monthStart;
    Z.div_mod_to_equations; lia.
Qed.

Lemma monthStart_mono (a b : Z) : a <= b -> monthStart a <= monthStart b.
Proof.
  intros Hab. unfold monthStart. apply Z.div_le_mono; lia.
Qed.


Local Close Scope Z_scope.

(** Every date of the proleptic Gregorian calendar is valid in the calendar
    the conversion follows. *)
Lemma gregorianDate_valid (d : DateType) : gregorianDate d -> validDate d.
Proof.
  unfold gregorianDate, validDate, leapYear, gregorianLeapYear.
  intros [Hm Hd]. split; [exact Hm |].
  destruct (year d <? 0)%Z; [| exact Hd].
  destruct (year d mod 4 =? 0)%Z; cbn [andb] in Hd; [| exact Hd].
  unfold daysInMonth in *.
  destruct (month d =? 2)%Z; [| exact Hd].
  destruct (negb (year d mod 100 =? 0) || (year d mod 400 =? 0))%Z; lia.
Qed.






(** ** C1: where the round trip holds and where it fails *)

Local Open Scope Z_scope.

Lemma leapYear_mod4 (y : Z) : leapYear y = true -> y mod 4 = 0.
Proof.
  unfold leapYear. destruct (y <? 0).
  - apply Z.eqb_eq.
  - intros H. apply andb_true_iff in H. now apply Z.eqb_eq.
Qed.

(** The year of the conversion is recovered from a day number within it. *)
Lemma year_recovered (Y P : Z) (leap : bool) :
  123 <= P <= 487 + (if leap then 1 else 0) ->
  (leap = true -> (Y + 1) mod 4 = 0) ->
  (20 * (1461 * Y / 4 + P) - 2442) / 7305 = Y.
Proof.
  intros HP Hleap. destruct leap.
  - specialize (Hleap eq_refl). Z.div_mod_to_equations. lia.
  - clear Hleap. Z.div_mod_to_equations. lia.
Qed.

(** The month of the conversion is recovered from a day count within the
    year. *)
Lemma month_recovered (m dd : Z) :
  3 <= m <= 14 -> 1 <= dd ->
  (m < 14 -> monthStart m + dd <= monthStart (m + 1)) ->
  (m = 14 -> dd <= 29) ->
  10000 * (monthStart m + dd) / 306001 = m + 1.
Proof.
  intros Hm Hdd Hnext Hfeb.
  assert (Hcases : m = 3 \/ m = 4 \/ m = 5 \/ m = 6 \/ m = 7 \/ m = 8 \/
                   m = 9 \/ m = 10 \/ m = 11 \/ m = 12 \/ m = 13 \/ m = 14)
    by lia.
  unfold monthStart in *.
  repeat (destruct Hcases as [-> | Hcases]); try subst m;
    (try specialize (Hnext ltac:(lia))); (try specialize (Hfeb eq_refl));
    Z.div_mod_to_equations; lia.
Qed.

(** The tail of [numberToDate] inverts the day count of a valid date. *)
Lemma dateOfJulianDay_inverts (d : DateType) (A : Z) :
  validDate d ->
  A + 1524
  = 1461 * (shiftedYear d + 4716) / 4 + monthStart (shiftedMonth d) + day d ->
  dateOfJulianDay A = d.
Proof.
  intros V HA.
  pose proof (day_in_year d V) as (Hm & Hlo & Hnext & Hfeb & Hyear).
  cbv zeta in *.
  set (Y := shiftedYear d + 4716) in *.
  set (m := shiftedMonth d) in *.
  set (P := monthStart m + day d) in *.
  assert (HB : A + 1524 = 1461 * Y / 4 + P) by lia.
  assert (HC : (20 * (1461 * Y / 4 + P) - 2442) / 7305 = Y).
  { apply (year_recovered Y P (leapYear (shiftedYear d + 1))); [exact Hyear |].
    intros Hleap. apply leapYear_mod4 in Hleap. subst Y.
    Z.div_mod_to_equations. lia. }
  assert (HE : 10000 * P / 306001 = m + 1).
  { apply month_recovered; try lia.
    intros Hm14. specialize (Hfeb Hm14).
    subst P. rewrite Hm14 in *. unfold monthStart in *.
    destruct (leapYear (year d)); Z.div_mod_to_equations; lia. }
  unfold dateOfJulianDay. cbv zeta. rewrite HB, HC.
  replace (1461 * Y / 4 + P - 1461 * Y / 4) with P by lia.
  rewrite HE. fold (monthStart m).
  destruct V as [Vm Vd].
  subst P Y m. unfold shiftedYear, shiftedMonth in *.
  destruct d as [y mo dd]. cbn [year month day] in *.
  destruct (Z.leb_spec mo 2).
  - destruct (Z.ltb_spec (mo + 12 + 1) 14); [lia |].
    destruct (Z.ltb_spec 2 (mo + 12 + 1 - 13)); [lia |].
    f_equal; lia.
  - destruct (Z.ltb_spec (mo + 1) 14); [| lia].
    destruct (Z.ltb_spec 2 (mo + 1 - 1)); [| lia].
    f_equal; lia.
Qed.

(** Before year 0 the forward conversion applies no correction and the
    inverse takes its first branch. *)
Lemma roundtrip_before_year_0 (d : DateType) :
  validDate d -> year d < 0 -> numberToDate (dateToNumber d) = d.
Proof.
  intros V Hy.
  rewrite roundtrip_dayNumber. unfold dateOfDayNumber.
  apply dateOfJulianDay_inverts; [exact V |].
  pose proof (day_in_year d V) as (Hm & _ & _ & _ & Hyear).
  cbv zeta in *.
  rewrite dayNumber_split. unfold yearStart.
  assert (Hs : shiftedYear d < 0)
    by (unfold shiftedYear; destruct (month d <=? 2); lia).
  destruct (Z.ltb_spec (shiftedYear d) 0); [| lia].
  unfold julianDay.
  destruct (Z.ltb_spec
              (1461 * (shiftedYear d + 4716) / 4 + 0
               + monthStart (shiftedMonth d) + day d - 1524) 2299161) as [_ | Hge].
  - lia.
  - exfalso. destruct (leapYear (shiftedYear d + 1));
      Z.div_mod_to_equations; lia.
Qed.

(** From 1583 on the inverse takes its second branch, and the century count
    [alpha] it computes is the forward conversion's [A] less 4. *)
Lemma century_recovered (y P : Z) :
  0 <= y ->
  123 <= P <= 487 + (if leapYear (y + 1) then 1 else 0) ->
  let n := 1461 * (y + 4716) / 4 + (2 - y / 100 + y / 100 / 4) + P - 1524 in
  (4 * n - 7468865) / 146097 = y / 100 - 4.
Proof.
  intros Hy HP. cbv zeta.
  unfold leapYear in HP.
  destruct (Z.ltb_spec (y + 1) 0); [lia |].
  destruct (Z.eqb_spec ((y + 1) mod 4) 0), (Z.eqb_spec ((y + 1) mod 100) 0),
           (Z.eqb_spec ((y + 1) mod 400) 0);
    cbn [andb orb negb] in HP; Z.div_mod_to_equations; lia.
Qed.

(** From 15 October 1582 on, the inverse undoes the Gregorian correction the
    forward conversion applied. *)
Lemma roundtrip_gregorian (d : DateType) :
  validDate d -> 0 <= shiftedYear d -> 2299161 <= dayNumber d - 1524 ->
  numberToDate (dateToNumber d) = d.
Proof.
  intros V Hs Hn.
  rewrite roundtrip_dayNumber. unfold dateOfDayNumber.
  apply dateOfJulianDay_inverts; [exact V |].
  pose proof (day_in_year d V) as (_ & _ & _ & _ & Hyear).
  cbv zeta in Hyear.
  unfold julianDay.
  destruct (Z.ltb_spec (dayNumber d - 1524) 2299161) as [Hlt | _]; [lia |].
  cbv zeta.
  pose proof (century_recovered (shiftedYear d)
                (monthStart (shiftedMonth d) + day d) Hs Hyear) as Halpha.
  cbv zeta in Halpha.
  rewrite dayNumber_split in *. unfold yearStart in *.
  destruct (Z.ltb_spec (shiftedYear d) 0); [lia |].
  replace (1461 * (shiftedYear d + 4716) / 4
           + (2 - shiftedYear d / 100 + shiftedYear d / 100 / 4)
           + monthStart (shiftedMonth d) + day d - 1524)
    with (1461 * (shiftedYear d + 4716) / 4
          + (2 - shiftedYear d / 100 + shiftedYear d / 100 / 4)
          + (monthStart (shiftedMonth d) + day d) - 1524) by lia.
  rewrite Halpha.
  replace ((shiftedYear d / 100 - 4) / 4) with (shiftedYear d / 100 / 4 - 1)
    by (Z.div_mod_to_equations; lia).
  lia.
Qed.

Lemma roundtrip_from_1583 (d : DateType) :
  validDate d -> 1583 <= year d -> numberToDate (dateToNumber d) = d.
Proof.
  intros V Hy.
  pose proof (day_in_year d V) as (Hm & Hlo & _ & _ & _). cbv zeta in *.
  assert (Hcases : (shiftedYear d = year d - 1 /\ 13 <= shiftedMonth d) \/
                   shiftedYear d = year d).
  { unfold shiftedYear, shiftedMonth. destruct V as [Vm _].
    destruct (Z.leb_spec (month d) 2); [left | right]; lia. }
  apply roundtrip_gregorian; [exact V | lia |].
  rewrite dayNumber_split. unfold yearStart.
  destruct (Z.ltb_spec (shiftedYear d) 0); [lia |].
  destruct Hcases as [[Hs Hmonth] | Hs].
  - pose proof (monthStart_mono 13 (shiftedMonth d) Hmonth) as Hmono.
    unfold monthStart in *. rewrite Hs in *. Z.div_mod_to_equations. lia.
  - unfold monthStart in *. rewrite Hs in *. Z.div_mod_to_equations. lia.
Qed.

Local Close Scope Z_scope.

(** The round trip holds before year 0 and from 1583 on, in particular for
    the years -4000..-1 and 1583..4000. *)
Lemma roundtrip_outside_0_1582 (d : DateType) :
  validDate d -> (year d < 0 \/ 1583 <= year d)%Z ->
  numberToDate (dateToNumber d) = d.
Proof.
  intros V [Hy | Hy].
  - now apply roundtrip_before_year_0.
  - now apply roundtrip_from_1583.
Qed.

Lemma roundtrip_outside_0_1582_witness :
  numberToDate (dateToNumber (mkDate (-44) 3 15)) = mkDate (-44) 3 15 /\
  numberToDate (dateToNumber (mkDate 2000 2 29)) = mkDate 2000 2 29.
Proof.
  split; apply roundtrip_outside_0_1582;
    (unfold validDate; cbn; lia).
Defined.

(** C1, at an input the code gets wrong. 1 March 1000 is a valid date within
    the range of the property; its ordinal is 2086361.5, which the inverse
    reads as 24 February 1000. *)
Theorem roundtrip_fails_in_year_1000 :
  let d := mkDate 1000 3 1 in
  validDate d /\ gregorianDate d /\
  dateToNumber d == 2086361.5 /\
  numberToDate (dateToNumber d) = mkDate 1000 2 24 /\
  numberToDate (dateToNumber d) <> d.
Proof.
  cbv zeta. split; [| split; [| split; [| split]]].
  - unfold validDate. cbn. lia.
  - unfold gregorianDate. cbn. lia.
  - vm_compute. reflexivity.
  - vm_compute. reflexivity.
  - vm_compute. discriminate.
Qed.

(** ** The fixed points and the failing round trip in binary64 *)

Section Doubles.

Import Floats.
Local Open Scope float_scope.

(** Evaluated on doubles, the ordinal of 1 January 2000 is 2451544.5 and the
    round trip of 1 March 1000 ends on 24 February 1000, as in the exact
    model. *)
Lemma binary64_fixed_points :
  Binary64.dateToNumber (mkDate 2000 1 1) = 2451544.5 /\
  Binary64.numberToDate (Binary64.dateToNumber (mkDate 1000 3 1))
  = (1000, 2, 24) /\
  Binary64.numberToDate (Binary64.dateToNumber (mkDate (-44) 3 15))
  = (-44, 3, 15).
Proof.
  repeat split; vm_compute; reflexivity.
Qed.

(** On every day 1..31 of every month of the years below, the doubles and
    the exact model agree on the ordinal and on the date read back. *)
Lemma binary64_agrees_on_sample :
  forallb (fun y => forallb Binary64.agrees (daysOfYear y))
          [-4000; -401; -400; -101; -100; -5; -4; -1; 0; 1; 4; 100; 400; 1000;
           1582; 1583; 1600; 1900; 2000; 2024; 2100; 4000]%Z
  = true.
Proof. vm_compute. reflexivity. Qed.

End Doubles.

(** ** C8: the year filter *)

Lemma filterEvents_keep (startYear endYear : option Z) (event : EventType) :
  (let eventYear := year (date event) in
   let include := true in
   let include :=
     match startYear with
     | Some s => if (eventYear <? s)%Z then false else include
     | None => include
     end in
   let include :=
     match endYear with
     | Some e => if (e <? eventYear)%Z then false else include
     | None => include
     end in
   include) = withinYears startYear endYear (year (date event)).
Proof.
  unfold withinYears. cbv zeta.
  destruct startYear as [s |], endYear as [e |]; cbn;
    repeat match goal with
           | |- context [(?a <? ?b)%Z] => destruct (Z.ltb_spec a b)
           | |- context [(?a <=? ?b)%Z] => destruct (Z.leb_spec a b)
           end; try reflexivity; lia.
Qed.

(** C8. The filter keeps, in order, exactly the events whose year is at
    least [startYear] (when given) and at most [endYear] (when given); on
    events of the years -50, 10, 500 and 1990 with bounds 0 and 1000 it keeps
    the events of the years 10 and 500. *)
Theorem filterEvents_exact :
  (forall events startYear endYear,
      filterEvents events startYear endYear =
      filter (fun event => withinYears startYear endYear (year (date event)))
             events) /\
  (forall events startYear endYear event,
      In event (filterEvents events startYear endYear) <->
      In event events /\
      (forall s, startYear = Some s -> (s <= year (date event))%Z) /\
      (forall e, endYear = Some e -> (year (date event) <= e)%Z)) /\
  (forall e1 e2 e3 e4,
      year (date e1) = (-50)%Z -> year (date e2) = 10%Z ->
      year (date e3) = 500%Z -> year (date e4) = 1990%Z ->
      filterEvents [e1; e2; e3; e4] (Some 0%Z) (Some 1000%Z) = [e2; e3]).
Proof.
  assert (Hfilter : forall events startYear endYear,
      filterEvents events startYear endYear =
      filter (fun event => withinYears startYear endYear (year (date event)))
             events).
  { intros. unfold filterEvents. apply filter_ext. intros event.
    apply filterEvents_keep. }
  split; [exact Hfilter | split].
  - intros events startYear endYear event.
    rewrite Hfilter, filter_In. unfold withinYears.
    rewrite andb_true_iff.
    split.
    + intros (Hin & Hs & He). split; [exact Hin | split].
      * intros s ->. now apply Z.leb_le.
      * intros e ->. now apply Z.leb_le.
    + intros (Hin & Hs & He). split; [exact Hin | split].
      * destruct startYear as [s |]; [| reflexivity].
        apply Z.leb_le, Hs. reflexivity.
      * destruct endYear as [e |]; [| reflexivity].
        apply Z.leb_le, He. reflexivity.
  - intros e1 e2 e3 e4 H1 H2 H3 H4.
    rewrite Hfilter. cbn. rewrite H1, H2, H3, H4. reflexivity.
Qed.

Lemma filterEvents_exact_witness :
  let ev y := mkEvent (mkDate y 1 1) "e"%string "c"%string "d"%string [] None in
  filterEvents [ev (-50)%Z; ev 10%Z; ev 500%Z; ev 1990%Z] (Some 0%Z) (Some 1000%Z)
  = [ev 10%Z; ev 500%Z].
Proof.
  intros ev.
  apply (proj2 (proj2 filterEvents_exact)); reflexivity.
Defined.

(** ** The extent of the ordinals *)

Lemma extent_from_ordered (values : list (option Q)) :
  forall acc, ordered acc -> ordered (d3.extent_from acc values).
Proof.
  induction values as [| [v |] rest IH]; intros acc Hacc; cbn.
  - exact Hacc.
  - destruct acc as [[lo hi] |].
    + apply IH. cbn in *.
      destruct (Qltb_cases v lo) as [[H1 ->] | [H1 ->]],
               (Qltb_cases hi v) as [[H2 ->] | [H2 ->]]; lra.
    + apply IH. cbn. lra.
  - apply IH, Hacc.
Qed.

Lemma extent_from_covers (values : list (option Q)) :
  forall acc lo hi,
    d3.extent_from acc values = Some (lo, hi) ->
    (forall a b, acc = Some (a, b) -> lo <= a /\ b <= hi) /\
    (forall q, In (Some q) values -> lo <= q /\ q <= hi).
Proof.
  induction values as [| [v |] rest IH]; intros acc lo hi Hext; cbn in Hext.
  - subst acc. split.
    + intros a b [= <- <-]. lra.
    + intros q [].
  - destruct acc as [[a0 b0] |].
    + destruct (IH _ _ _ Hext) as [Hacc Hin].
      destruct (Hacc _ _ eq_refl) as [Ha Hb].
      split.
      * intros a b [= <- <-].
        destruct (Qltb_cases v a0) as [[H1 E1] | [H1 E1]]; rewrite E1 in Ha;
          destruct (Qltb_cases b0 v) as [[H2 E2] | [H2 E2]]; rewrite E2 in Hb; lra.
      * intros q [[= ->] | Hq]; [| now apply Hin].
        destruct (Qltb_cases q a0) as [[H1 E1] | [H1 E1]]; rewrite E1 in Ha;
          destruct (Qltb_cases b0 q) as [[H2 E2] | [H2 E2]]; rewrite E2 in Hb; lra.
    + destruct (IH _ _ _ Hext) as [Hacc Hin].
      destruct (Hacc _ _ eq_refl) as [Ha Hb].
      split; [intros a b [=] |].
      intros q [[= ->] | Hq]; [lra | now apply Hin].
  - destruct (IH _ _ _ Hext) as [Hacc Hin].
    split; [exact Hacc |].
    intros q [[=] | Hq]. now apply Hin.
Qed.

Lemma extent_from_some (values : list (option Q)) :
  forall p, exists r, d3.extent_from (Some p) values = Some r.
Proof.
  induction values as [| [v |] rest IH]; intros [lo hi]; cbn.
  - now eexists.
  - apply IH.
  - apply IH.
Qed.

(** What a successful call of [setupScales] returns. *)
Lemma setupScales_returns events width height categories colors scales :
  setupScales events width height categories colors = Return scales ->
  exists lo hi,
    d3.extent events dateValue = (Some lo, Some hi) /\
    ~ lo == 0 /\ ~ hi == 0 /\ lo <= hi /\
    (forall event q, In event events -> dateValue event = Some q ->
                     lo <= q /\ q <= hi) /\
    x scales = d3.mkLinear (lo, hi) (0, width) /\
    xDay scales = d3.mkLinear (lo, hi) (CONFIG.dayStart, CONFIG.dayEnd).
Proof.
  unfold setupScales, d3.extent.
  destruct (d3.extent_from None (map dateValue events)) as [[lo hi] |] eqn:Hext;
    cbn [fst snd not_]; [| discriminate].
  destruct (Qeq_bool lo 0) eqn:Hlo; [discriminate |].
  destruct (Qeq_bool hi 0) eqn:Hhi; [discriminate |].
  cbn [orb]. intros [= <-].
  exists lo, hi.
  split; [reflexivity |].
  split; [intros H; apply Qeq_bool_iff in H; congruence |].
  split; [intros H; apply Qeq_bool_iff in H; congruence |].
  split.
  { pose proof (extent_from_ordered (map dateValue events) None I) as Hord.
    rewrite Hext in Hord. exact Hord. }
  split; [| split; reflexivity].
  intros event q Hin Hq.
  apply (extent_from_covers _ _ _ _ Hext).
  rewrite <- Hq. now apply in_map.
Qed.

(** ** C5: when [setupScales] throws *)

(** An empty event set is refused. *)
Lemma setupScales_empty width height categories colors :
  setupScales [] width height categories colors
  = Throw "Invalid data for x-axis extent.".
Proof. reflexivity. Qed.

(** C5, at the input the code gets wrong. A single event whose ordinal is 0
    is a non-empty event set, and the guard of the first revision accepts its
    extent; [setupScales] throws on it. *)
Theorem setupScales_zero_ordinal_throws :
  forall date name type description sources width height categories colors,
    let events := [mkEvent date name type description sources (Some 0)] in
    setupScales events width height categories colors
    = Throw "Invalid data for x-axis extent." /\
    d3.extent events dateValue = (Some 0, Some 0) /\
    extent_undefined (d3.extent events dateValue) = false.
Proof.
  intros. repeat split.
Qed.

(** The same happens as soon as the least or the greatest ordinal is 0. *)
Lemma setupScales_throws_iff events width height categories colors :
  (exists message,
      setupScales events width height categories colors = Throw message) <->
  match d3.extent events dateValue with
  | (Some lo, Some hi) => lo == 0 \/ hi == 0
  | _ => True
  end.
Proof.
  unfold setupScales, d3.extent.
  destruct (d3.extent_from None (map dateValue events)) as [[lo hi] |];
    cbn [fst snd not_].
  - destruct (Qeq_bool lo 0) eqn:Hlo; cbn [orb].
    + split; [intros _ | intros _; now eexists].
      left. now apply Qeq_bool_iff.
    + destruct (Qeq_bool hi 0) eqn:Hhi.
      * split; [intros _ | intros _; now eexists].
        right. now apply Qeq_bool_iff.
      * split; [intros [message [=]] |].
        intros [H | H]; apply Qeq_bool_iff in H; congruence.
  - split; [trivial | intros _; now eexists].
Qed.

(** *** On the event sets the program builds *)

Lemma extent_from_attained (values : list (option Q)) :
  forall acc lo hi,
    d3.extent_from acc values = Some (lo, hi) ->
    (In (Some lo) values \/ exists b, acc = Some (lo, b)) /\
    (In (Some hi) values \/ exists a, acc = Some (a, hi)).
Proof.
  induction values as [| [v |] rest IH]; intros acc lo hi Hext; cbn in Hext.
  - subst acc. split; right; now eexists.
  - destruct acc as [[a0 b0] |].
    + destruct (IH _ _ _ Hext) as [Hlo Hhi]. split.
      * destruct Hlo as [Hin | [b [= Hl _]]]; [left; now right |].
        destruct (Qltb v a0); [left; left; now subst | right; subst; now eexists].
      * destruct Hhi as [Hin | [a [= _ Hh]]]; [left; now right |].
        destruct (Qltb b0 v); [left; left; now subst | right; subst; now eexists].
    + destruct (IH _ _ _ Hext) as [Hlo Hhi]. split.
      * destruct Hlo as [Hin | [b [= Hl _]]]; [left; now right |].
        left. left. now subst.
      * destruct Hhi as [Hin | [a [= _ Hh]]]; [left; now right |].
        left. left. now subst.
  - destruct (IH _ _ _ Hext) as [Hlo Hhi]. split.
    + destruct Hlo as [Hin | Hacc]; [left; now right | now right].
    + destruct Hhi as [Hin | Hacc]; [left; now right | now right].
Qed.

(** An ordinal computed from a date is never 0: it is a half-integer. *)
Lemma dateToNumber_nonzero (d : DateType) : ~ dateToNumber d == 0.
Proof.
  rewrite dateToNumber_dayNumber. intros H.
  assert (H2 : inject_Z (2 * dayNumber d) == inject_Z 3049).
  { rewrite inject_Z_mult. change (inject_Z 2) with 2.
    change (inject_Z 3049) with 3049. lra. }
  apply (proj1 (inject_Z_injective _ _)) in H2. lia.
Qed.

Lemma processEventData_ordinals (events : list EventType) :
  map dateValue (processEventData events)
  = map (fun event => Some (dateToNumber (date event))) events.
Proof.
  unfold processEventData. rewrite map_map. reflexivity.
Qed.

(** After [processEventData], [setupScales] throws on the empty event set
    only; on any other it returns the domain from the least to the greatest
    ordinal, a single point included. *)
Lemma setupScales_processed events width height categories colors :
  events <> [] ->
  exists scales lo hi,
    setupScales (processEventData events) width height categories colors
    = Return scales /\
    d3.domain (x scales) = (lo, hi) /\
    (exists event, In event events /\ lo = dateToNumber (date event)) /\
    (exists event, In event events /\ hi = dateToNumber (date event)) /\
    (forall event, In event events ->
                   lo <= dateToNumber (date event) /\
                   dateToNumber (date event) <= hi).
Proof.
  intros Hne.
  unfold setupScales, d3.extent. rewrite processEventData_ordinals.
  destruct events as [| e0 rest]; [contradiction |].
  cbn [map d3.extent_from].
  destruct (extent_from_some
              (map (fun event => Some (dateToNumber (date event))) rest)
              (dateToNumber (date e0), dateToNumber (date e0))) as [[lo hi] Hext].
  rewrite Hext. cbn [fst snd not_].
  destruct (extent_from_attained _ _ _ _ Hext) as [Hlo Hhi].
  destruct (extent_from_covers _ _ _ _ Hext) as [Hacc Hin].
  assert (Hmin : exists event, In event (e0 :: rest) /\ lo = dateToNumber (date event)).
  { destruct Hlo as [Hl | [b [= Hl _]]].
    - apply in_map_iff in Hl. destruct Hl as (event & [= Hl] & Hmem).
      exists event. split; [now right | now symmetry].
    - exists e0. split; [now left | now symmetry]. }
  assert (Hmax : exists event, In event (e0 :: rest) /\ hi = dateToNumber (date event)).
  { destruct Hhi as [Hh | [a [= _ Hh]]].
    - apply in_map_iff in Hh. destruct Hh as (event & [= Hh] & Hmem).
      exists event. split; [now right | now symmetry].
    - exists e0. split; [now left | now symmetry]. }
  assert (Hlo0 : Qeq_bool lo 0 = false).
  { apply not_true_iff_false. intros H. apply Qeq_bool_iff in H.
    destruct Hmin as (event & _ & ->). now apply dateToNumber_nonzero in H. }
  assert (Hhi0 : Qeq_bool hi 0 = false).
  { apply not_true_iff_false. intros H. apply Qeq_bool_iff in H.
    destruct Hmax as (event & _ & ->). now apply dateToNumber_nonzero in H. }
  rewrite Hlo0, Hhi0. cbn [orb].
  eexists. exists lo, hi.
  split; [reflexivity |]. cbn [x d3.domain].
  split; [reflexivity |].
  split; [exact Hmin |]. split; [exact Hmax |].
  intros event [<- | Hmem].
  - destruct (Hacc _ _ eq_refl). split; assumption.
  - apply Hin. apply in_map_iff. exists event. split; [reflexivity | exact Hmem].
Qed.

Lemma setupScales_processed_witness :
  let e := mkEvent (mkDate 2000 1 1) "e"%string "c"%string "d"%string [] None in
  exists scales lo hi,
    setupScales (processEventData [e]) 850 300 [] [] = Return scales /\
    d3.domain (x scales) = (lo, hi) /\
    (exists event, In event [e] /\ lo = dateToNumber (date event)) /\
    (exists event, In event [e] /\ hi = dateToNumber (date event)) /\
    (forall event, In event [e] ->
                   lo <= dateToNumber (date event) /\
                   dateToNumber (date event) <= hi).
Proof.
  intros e. apply (setupScales_processed [e] 850 300 [] []). discriminate.
Defined.

(** ** C6: the clamp *)

(** *** In exact arithmetic *)

Lemma span_shrinks (span k : Q) :
  0 <= span -> 1 <= k -> 0 <= span / k /\ span / k <= span.
Proof.
  intros Hs Hk.
  assert (Hk0 : 0 < k) by lra.
  split.
  - apply Qle_shift_div_l; [exact Hk0 | lra].
  - apply Qle_shift_div_r; [exact Hk0 |]. nra.
Qed.

(** The rescaled domain of a linear scale over [[0, width]] is no wider than
    the base domain when the scale factor is at least 1: its span is the
    base span divided by the factor (and 0 on a plot of width 0). *)
Lemma rescaleX_span (lo hi width : Q) (t : d3.Transform) :
  lo <= hi -> 1 <= d3.k t ->
  let newX := d3.rescaleX t (d3.mkLinear (lo, hi) (0, width)) in
  0 <= snd (d3.domain newX) - fst (d3.domain newX) /\
  snd (d3.domain newX) - fst (d3.domain newX) <= hi - lo.
Proof.
  intros Hle Hk. cbv zeta.
  destruct (span_shrinks (hi - lo) (d3.k t) ltac:(lra) Hk) as [H0 H1].
  unfold d3.rescaleX, d3.invert, d3.bimap. cbn [d3.range d3.domain fst snd].
  unfold d3.normalize, d3.interpolateNumber, d3.invertX.
  destruct (Qltb_cases width 0) as [[Hw ->] | [Hw ->]].
  - destruct (Qeq_bool (0 - width) 0) eqn:Hz.
    { apply Qeq_bool_iff in Hz. lra. }
    assert (Hspan :
              hi * (1 - ((width - d3.x t) / d3.k t - width) / (0 - width))
              + lo * (((width - d3.x t) / d3.k t - width) / (0 - width))
              - (hi * (1 - ((0 - d3.x t) / d3.k t - width) / (0 - width))
                 + lo * (((0 - d3.x t) / d3.k t - width) / (0 - width)))
              == (hi - lo) / d3.k t)
      by (field; split; lra).
    rewrite Hspan. split; assumption.
  - destruct (Qeq_bool (width - 0) 0) eqn:Hz.
    + assert (Hspan : lo * (1 - 0.5) + hi * 0.5 - (lo * (1 - 0.5) + hi * 0.5) == 0)
        by ring.
      rewrite Hspan. split; lra.
    + assert (Hne : ~ width == 0).
      { intros Hw0. apply not_true_iff_false in Hz. apply Hz.
        apply Qeq_bool_iff. lra. }
      assert (Hspan :
                lo * (1 - ((width - d3.x t) / d3.k t - 0) / (width - 0))
                + hi * (((width - d3.x t) / d3.k t - 0) / (width - 0))
                - (lo * (1 - ((0 - d3.x t) / d3.k t - 0) / (width - 0))
                   + hi * (((0 - d3.x t) / d3.k t - 0) / (width - 0)))
                == (hi - lo) / d3.k t)
        by (field; split; lra).
      rewrite Hspan. split; assumption.
Qed.

(** One zoom event: the two shifts of the listener bring a domain that is
    no wider than the base domain inside it. *)
Lemma zoomed_clamped (lo hi width : Q) (t : d3.Transform) :
  lo <= hi -> 1 <= d3.k t ->
  clamped lo hi (newX (zoomed (d3.mkLinear (lo, hi) (0, width)) lo hi t)).
Proof.
  intros Hle Hk.
  pose proof (rescaleX_span lo hi width t Hle Hk) as Hspan.
  cbv zeta in Hspan.
  unfold zoomed, clamped. cbn [newX d3.domain].
  set (d := d3.domain (d3.rescaleX t (d3.mkLinear (lo, hi) (0, width)))) in *.
  destruct d as [d0 d1]. cbn [fst snd] in *.
  destruct (Qltb_cases d0 lo) as [[Ha ->] | [Ha ->]]; cbn [fst snd].
  - destruct (Qltb_cases hi (d1 + (lo - d0))) as [[Hb ->] | [Hb ->]];
      cbn [fst snd]; lra.
  - destruct (Qltb_cases hi d1) as [[Hb ->] | [Hb ->]]; cbn [fst snd]; lra.
Qed.

Lemma after_events_last x minDateValue maxDateValue transforms t :
  after_events x minDateValue maxDateValue (transforms ++ [t])
  = zoomed x minDateValue maxDateValue t.
Proof.
  unfold after_events. rewrite fold_left_app. reflexivity.
Qed.

(** Were the numbers exact: with the base scale and its domain as
    [setupScales] builds them, after any sequence of zoom events whose
    transforms have a scale factor of at least 1 the clamped visible domain
    would satisfy domainMin <= visibleMin <= visibleMax <= domainMax. *)
Lemma clamp_invariant events width height categories colors scales transforms :
  setupScales events width height categories colors = Return scales ->
  Forall (fun t => 1 <= d3.k t) transforms ->
  let minDateValue := fst (d3.domain (x scales)) in
  let maxDateValue := snd (d3.domain (x scales)) in
  clamped minDateValue maxDateValue
          (newX (after_events (x scales) minDateValue maxDateValue transforms)).
Proof.
  intros Hret Hks.
  destruct (setupScales_returns _ _ _ _ _ _ Hret)
    as (lo & hi & _ & _ & _ & Hle & _ & Hx & _).
  rewrite Hx. cbn [d3.domain fst snd].
  destruct transforms as [| t0 rest] using rev_ind.
  - unfold after_events, clamped. cbn. lra.
  - rewrite after_events_last.
    apply Forall_app in Hks. destruct Hks as [_ Hlast].
    apply zoomed_clamped; [exact Hle |].
    now inversion Hlast.
Qed.

Lemma clamp_invariant_witness :
  let ev v := mkEvent (mkDate 1 1 1) "e"%string "c"%string "d"%string [] (Some v) in
  let x0 := d3.mkLinear (100, 200) (0, 1000) in
  clamped 100 200
    (newX (after_events x0 100 200
             [d3.mkTransform 2 300; d3.mkTransform 4 (-3500)])).
Proof.
  intros ev x0.
  refine (clamp_invariant [ev 100; ev 200] 1000 300 [] []
            (mkScales x0 (d3.mkPoint [] (50, 300 - 50)) (d3.mkOrdinal [] [])
                      (d3.mkLinear (100, 200) (CONFIG.dayStart, CONFIG.dayEnd)))
            [d3.mkTransform 2 300; d3.mkTransform 4 (-3500)] _ _).
  - reflexivity.
  - repeat constructor; cbn; discriminate.
Defined.

(** *** On doubles *)

Section DoublesClamp.

Import Floats.
Local Open Scope float_scope.








End DoublesClamp.

(** ** C7: the bounds of the scale factor *)

Lemma scale_within_extent (z : d3.ZoomBehavior) (t : d3.Transform) (k1 : Q) :
  fst (d3.scaleExtent z) <= snd (d3.scaleExtent z) ->
  fst (d3.scaleExtent z) <= d3.k (d3.scale z t k1) /\
  d3.k (d3.scale z t k1) <= snd (d3.scaleExtent z).
Proof.
  intros Hext. unfold d3.scale. cbn [d3.k]. split.
  - apply Q.le_max_l.
  - apply Q.max_lub; [exact Hext | apply Q.le_min_l].
Qed.

Lemma scaleTo_k (z : d3.ZoomBehavior) (t : d3.Transform) (k1 p : Q) :
  d3.k (d3.scaleTo z t k1 p) = d3.k (d3.scale z t k1).
Proof. reflexivity. Qed.

Lemma drag_k (z : d3.ZoomBehavior) (t : d3.Transform) (p0 p1 : Q) :
  d3.k (d3.drag z t p0 p1) = d3.k t.
Proof. reflexivity. Qed.

Section ZoomBounds.

Variables (width : Q) (x : d3.ScaleLinear) (minDateValue maxDateValue : Q).

(** A gesture leaves the scale factor within [1, 1000] when it was there. *)
Lemma on_gesture_scale_bounds (v : View) (g : Gesture) :
  1 <= d3.k (currentZoom v) /\ d3.k (currentZoom v) <= 1000 ->
  let v' := on_gesture (createZoom width) x minDateValue maxDateValue v g in
  1 <= d3.k (currentZoom v') /\ d3.k (currentZoom v') <= 1000.
Proof.
  intros Hv. cbv zeta. unfold on_gesture, zoomed. cbn [currentZoom].
  assert (Hext : fst (d3.scaleExtent (createZoom width))
                 <= snd (d3.scaleExtent (createZoom width)))
    by (cbn; discriminate).
  destruct g as [| | factor point | p0 p1]; cbn [proposed].
  - unfold zoomBy, d3.scaleBy. rewrite scaleTo_k.
    exact (scale_within_extent (createZoom width) _ _ Hext).
  - unfold zoomBy, d3.scaleBy. rewrite scaleTo_k.
    exact (scale_within_extent (createZoom width) _ _ Hext).
  - rewrite scaleTo_k.
    exact (scale_within_extent (createZoom width) _ _ Hext).
  - rewrite drag_k. exact Hv.
Qed.

(** From the identity transform, any sequence of button presses, wheel
    turns and drags commits a scale factor within [1, 1000]. *)
Lemma after_gestures_scale_bounds (gestures : list Gesture) :
  let v := after_gestures (createZoom width) x minDateValue maxDateValue
                          (initialView x) gestures in
  1 <= d3.k (currentZoom v) /\ d3.k (currentZoom v) <= 1000.
Proof.
  cbv zeta. unfold after_gestures.
  assert (Hinit : 1 <= d3.k (currentZoom (initialView x)) /\
                  d3.k (currentZoom (initialView x)) <= 1000)
    by (cbn; split; discriminate).
  revert Hinit. generalize (initialView x) as v.
  induction gestures as [| g rest IH]; intros v Hv; cbn [fold_left].
  - exact Hv.
  - apply IH. now apply on_gesture_scale_bounds.
Qed.

End ZoomBounds.

(** C7, at the input the code gets wrong. With [?zoom=5000] in the URL the
    first committed transform has the scale factor 5000, above the upper end
    of the scale extent, and the readout shows it. *)
Theorem query_zoom_bypasses_scale_extent :
  forall width x minDateValue maxDateValue,
    let v := initialViewFromQuery (createZoom width) x minDateValue maxDateValue
                                  (Some 5000) in
    d3.k (currentZoom v) == 5000 /\
    ~ d3.k (currentZoom v) <= snd (d3.scaleExtent (createZoom width)) /\
    zoomLevel v = "500000%"%string.
Proof.
  intros. subst v. unfold initialViewFromQuery, zoomed.
  cbn [currentZoom zoomLevel d3.transform queryZoom d3.Transform_scale
       d3.zoomIdentity d3.k d3.x createZoom d3.scaleExtent snd].
  split; [reflexivity | split].
  - intros H. apply Qle_bool_iff in H. discriminate.
  - reflexivity.
Qed.

(** A factor below the lower end is kept as well, and a drag afterwards
    leaves it where it is. *)
Lemma query_zoom_below_one :
  forall width x minDateValue maxDateValue p0 p1,
    let zoom := createZoom width in
    let v := initialViewFromQuery zoom x minDateValue maxDateValue (Some 0.5) in
    d3.k (currentZoom v) < 1 /\
    d3.k (currentZoom (on_gesture zoom x minDateValue maxDateValue v (Drag p0 p1))) < 1.
Proof.
  intros. split; reflexivity.
Qed.

(** With [?zoom=0.5] the committed factor is below 1 and the clamp no longer
    keeps the visible domain inside the base domain: over the base domain
    [100, 200] the visible domain becomes [0, 200]. *)
Lemma query_zoom_breaks_clamp :
  let x0 := d3.mkLinear (100, 200) (0, 1000) in
  let v := initialViewFromQuery (createZoom 1000) x0 100 200 (Some 0.5) in
  fst (d3.domain (newX v)) == 0 /\ snd (d3.domain (newX v)) == 200 /\
  ~ clamped 100 200 (newX v).
Proof.
  cbv zeta. split; [reflexivity | split; [reflexivity |]].
  intros (H & _). vm_compute in H. apply H. reflexivity.
Qed.

(** ** C10: the tooltip on a single-point domain *)

(** C10. When the base domain is a single point, every event of the set
    gets the minutes-in-day value [NaN] (the quotient 0/0) and the time
    string "NaN:NaN"; when the two ends of the domain differ the quotient is
    an ordinary number. *)
Theorem showInfo_single_point_domain :
  (forall events width height categories colors scales d,
      setupScales events width height categories colors = Return scales ->
      fst (d3.domain (x scales)) == snd (d3.domain (x scales)) ->
      In d events ->
      let info :=
        showInfo (fst (d3.domain (x scales))) (snd (d3.domain (x scales))) d in
      minutesInDay info = NaN /\ timeInDay info = "NaN:NaN"%string) /\
  (forall minDateValue maxDateValue d q,
      dateValue d = Some q ->
      ~ maxDateValue == minDateValue ->
      minutesInDay (showInfo minDateValue maxDateValue d)
      = Fin ((q - minDateValue) / (maxDateValue - minDateValue)
             * (CONFIG.dayEnd - CONFIG.dayStart))).
Proof.
  split.
  - intros events width height categories colors scales d Hret Hsingle Hin.
    destruct (setupScales_returns _ _ _ _ _ _ Hret)
      as (lo & hi & _ & _ & _ & _ & Hcover & Hx & _).
    rewrite Hx in *. cbn [d3.domain fst snd] in *.
    assert (Hmid : minutesInDay (showInfo lo hi d) = NaN).
    { unfold showInfo. cbn [minutesInDay].
      destruct (dateValue d) as [q |] eqn:Hq; cbn [of_optional Nsub].
      - destruct (Hcover d q Hin Hq) as [H1 H2].
        assert (Hspan : Qeq_bool (hi - lo) 0 = true)
          by (apply Qeq_bool_iff; lra).
        assert (Hsince : Qeq_bool (q - lo) 0 = true)
          by (apply Qeq_bool_iff; lra).
        cbn [Ndiv]. rewrite Hspan, Hsince. reflexivity.
      - reflexivity. }
    split; [exact Hmid |].
    unfold showInfo in *. cbn [minutesInDay timeInDay] in *.
    rewrite Hmid. reflexivity.
  - intros minDateValue maxDateValue d q Hq Hne.
    unfold showInfo. cbn [minutesInDay]. rewrite Hq. cbn [of_optional Nsub Ndiv].
    destruct (Qeq_bool (maxDateValue - minDateValue) 0) eqn:Hz.
    + exfalso. apply Hne. apply Qeq_bool_iff in Hz. lra.
    + reflexivity.
Qed.

Lemma showInfo_single_point_domain_witness :
  let d := mkEvent (mkDate 2000 1 1) "e"%string "c"%string "d"%string []
                   (Some 2451544.5) in
  timeInDay (showInfo 2451544.5 2451544.5 d) = "NaN:NaN"%string.
Proof.
  intros d.
  refine (proj2 (proj1 showInfo_single_point_domain [d] 850 300 [] []
                   (mkScales (d3.mkLinear (2451544.5, 2451544.5) (0, 850))
                             (d3.mkPoint [] (50, 300 - 50))
                             (d3.mkOrdinal [] [])
                             (d3.mkLinear (2451544.5, 2451544.5)
                                          (CONFIG.dayStart, CONFIG.dayEnd)))
                   d _ _ _)).
  - reflexivity.
  - reflexivity.
  - left. reflexivity.
Defined.

(** * Further properties of the code *)

(** ** [numberToDate] on a number with a time of day *)

Lemma floor_unique (v : Q) (z : Z) :
  inject_Z z <= v -> v < inject_Z (z + 1) -> Qfloor v = z.
Proof.
  intros Hlo Hhi.
  pose proof (Qfloor_le v) as H1. pose proof (Qlt_floor v) as H2.
  assert (Ha : (Qfloor v < z + 1)%Z).
  { rewrite Zlt_Qlt. eapply Qle_lt_trans; eassumption. }
  assert (Hb : (z < Qfloor v + 1)%Z).
  { rewrite Zlt_Qlt. eapply Qle_lt_trans; eassumption. }
  lia.
Qed.

(** The residual [F] is the time of day: a fraction in [0, 1). *)
Lemma residual_fraction (jd : Q) :
  let F := uF (numberToDate_locals jd) in
  F == jd + 0.5 - inject_Z (Qfloor (jd + 0.5)) /\ 0 <= F /\ F < 1.
Proof.
  cbv zeta. unfold numberToDate_locals. cbn [uF]. unfold Math_floor.
  pose proof (Qfloor_le (jd + 0.5)) as H1.
  pose proof (Qlt_floor (jd + 0.5)) as H2.
  rewrite inject_Z_plus in H2. change (inject_Z 1) with 1 in H2.
  split; [reflexivity | split; lra].
Qed.

(** Apart from [F], the locals depend on the whole number [Z] alone. *)
Lemma locals_of_whole_day (jd : Q) :
  let n := Qfloor (jd + 0.5) in
  let u := numberToDate_locals jd in
  let r := dateOfDayNumber n in
  uYear u == inject_Z (year r) /\
  uMonth u == inject_Z (month r) /\
  uDay u == inject_Z (day r) + uF u.
Proof.
  cbv zeta.
  set (n := Qfloor (jd + 0.5)).
  assert (HJ : (inject_Z n - 0.5) + 0.5 == inject_Z n) by ring.
  destruct (numberToDate_locals_dayNumber _ _ HJ) as (HF & Hy & Hm & Hd).
  cbv zeta in HF, Hy, Hm, Hd.
  assert (HZ : Math_floor (jd + 0.5) = inject_Z n) by reflexivity.
  assert (HZ' : Math_floor (inject_Z n - 0.5 + 0.5) = inject_Z n).
  { unfold Math_floor. now rewrite (Qfloor_comp _ _ HJ), Qfloor_Z. }
  assert (Hsame :
            uYear (numberToDate_locals jd)
            = uYear (numberToDate_locals (inject_Z n - 0.5)) /\
            uMonth (numberToDate_locals jd)
            = uMonth (numberToDate_locals (inject_Z n - 0.5)) /\
            uDay (numberToDate_locals jd) - uF (numberToDate_locals jd)
            == uDay (numberToDate_locals (inject_Z n - 0.5))
               - uF (numberToDate_locals (inject_Z n - 0.5))).
  { unfold numberToDate_locals. cbn [uYear uMonth uDay uF].
    rewrite HZ, HZ'. split; [reflexivity | split; [reflexivity | ring]]. }
  destruct Hsame as (Ey & Em & Ed).
  rewrite Ey, Em. split; [exact Hy | split; [exact Hm |]].
  rewrite <- Hd. rewrite HF in Ed. lra.
Qed.

(** [numberToDate], on any number, is the date of its whole day. *)
Lemma numberToDate_whole_day (jd : Q) :
  numberToDate jd = dateOfDayNumber (Qfloor (jd + 0.5)).
Proof.
  destruct (locals_of_whole_day jd) as (Hy & Hm & Hd).
  destruct (residual_fraction jd) as (_ & HF0 & HF1).
  cbv zeta in *. unfold numberToDate.
  rewrite (Qfloor_comp _ _ Hy), (Qfloor_comp _ _ Hm), !Qfloor_Z.
  set (r := dateOfDayNumber (Qfloor (jd + 0.5))) in *.
  rewrite (floor_unique _ (day r)).
  - now destruct r.
  - lra.
  - rewrite inject_Z_plus. change (inject_Z 1) with 1. lra.
Qed.

(** On the grid the time of day does not change the date: [numberToDate]
    gives the same date on a number and on the start of its day.  (Off the
    grid the sums [jd + 0.5] and [day + F] round in binary64, and a time
    within 2^-53 of midnight can be given the next day.) *)
Theorem numberToDate_ignores_time_of_day (jd : Q) :
  onGrid jd = true ->
  numberToDate jd = numberToDate (Math_floor (jd + 0.5) - 0.5).
Proof.
  intros _.
  rewrite (numberToDate_whole_day jd).
  rewrite (numberToDate_whole_day (Math_floor (jd + 0.5) - 0.5)).
  f_equal. unfold Math_floor.
  assert (H : inject_Z (Qfloor (jd + 0.5)) - 0.5 + 0.5
              == inject_Z (Qfloor (jd + 0.5))) by ring.
  rewrite (Qfloor_comp _ _ H). now rewrite Qfloor_Z.
Qed.

Lemma numberToDate_ignores_time_of_day_witness :
  numberToDate 2451545.25 = numberToDate (Math_floor (2451545.25 + 0.5) - 0.5).
Proof.
  apply numberToDate_ignores_time_of_day. vm_compute. reflexivity.
Defined.

Local Open Scope Z_scope.

(** The locals [B - D], [E] and [day] of the tail stay in their ranges. *)
Lemma tail_fields (A : Z) :
  let B := A + 1524 in
  let C := (20 * B - 2442) / 7305 in
  let D := 1461 * C / 4 in
  let E := 10000 * (B - D) / 306001 in
  123 <= B - D <= 488 /\ 4 <= E <= 15 /\
  1 <= B - D - 306001 * E / 10000 <= 31.
Proof.
  cbv zeta.
  set (B := A + 1524).
  set (C := (20 * B - 2442) / 7305).
  set (D := 1461 * C / 4).
  assert (HP : 123 <= B - D <= 488).
  { subst D C. Z.div_mod_to_equations. lia. }
  set (P := B - D) in *. clearbody P.
  assert (HE : 4 <= 10000 * P / 306001 <= 15) by (Z.div_mod_to_equations; lia).
  split; [exact HP | split; [exact HE |]].
  set (E := 10000 * P / 306001) in *.
  assert (Hc : E = 4 \/ E = 5 \/ E = 6 \/ E = 7 \/ E = 8 \/ E = 9 \/ E = 10 \/
               E = 11 \/ E = 12 \/ E = 13 \/ E = 14 \/ E = 15) by lia.
  subst E.
  repeat (destruct Hc as [Hc | Hc]); rewrite Hc; Z.div_mod_to_equations; lia.
Qed.

(** The date read off a day count: its fields are in range, and its year
    and month of the conversion are the locals [C - 4716] and [E - 1]. *)
Lemma dateOfJulianDay_fields (A : Z) :
  let d := dateOfJulianDay A in
  1 <= month d <= 12 /\ 1 <= day d <= 31 /\
  shiftedYear d = (20 * (A + 1524) - 2442) / 7305 - 4716 /\
  1461 * (shiftedYear d + 4716) / 4 + monthStart (shiftedMonth d) + day d
  = A + 1524.
Proof.
  pose proof (tail_fields A) as (HP & HE & Hday). cbv zeta in *.
  unfold dateOfJulianDay, shiftedYear, shiftedMonth, monthStart.
  cbv zeta. cbn [year month day].
  set (C := (20 * (A + 1524) - 2442) / 7305) in *.
  set (D := 1461 * C / 4) in *.
  set (E := 10000 * (A + 1524 - D) / 306001) in *.
  destruct (Z.ltb_spec E 14).
  - destruct (Z.ltb_spec 2 (E - 1)); [| lia].
    destruct (Z.leb_spec (E - 1) 2); [lia |].
    replace (C - 4716 + 4716) with C by lia. fold D.
    replace (E - 1 + 1) with E by lia. lia.
  - destruct (Z.ltb_spec 2 (E - 13)); [lia |].
    destruct (Z.leb_spec (E - 13) 2); [| lia].
    replace (C - 4715 - 1 + 4716) with C by lia. fold D.
    replace (E - 13 + 12 + 1) with E by lia. lia.
Qed.

Local Close Scope Z_scope.

(** On every number of the grid, the date [numberToDate] returns has a
    month in 1..12 and a day in 1..31. *)
Theorem numberToDate_fields_in_range (jd : Q) :
  onGrid jd = true ->
  (1 <= month (numberToDate jd) <= 12 /\ 1 <= day (numberToDate jd) <= 31)%Z.
Proof.
  intros _.
  rewrite numberToDate_whole_day. unfold dateOfDayNumber.
  destruct (dateOfJulianDay_fields (julianDay (Qfloor (jd + 0.5))))
    as (Hm & Hd & _). cbv zeta in *. split; assumption.
Qed.

Lemma numberToDate_fields_in_range_witness :
  (1 <= month (numberToDate (-0.5)) <= 12 /\
   1 <= day (numberToDate (-0.5)) <= 31)%Z.
Proof.
  apply numberToDate_fields_in_range. vm_compute. reflexivity.
Defined.

Local Open Scope Z_scope.

(** The forward conversion on the date of a whole number [n] gives [n]
    back, before 1 March of year 0 and from 15 October 1582 on. *)
Lemma dayNumber_dateOfDayNumber (n : Z) :
  n < 1721118 \/ 2299161 <= n ->
  dayNumber (dateOfDayNumber n) - 1524 = n.
Proof.
  intros Hn. unfold dateOfDayNumber.
  destruct (dateOfJulianDay_fields (julianDay n)) as (_ & _ & Hsy & Hcount).
  cbv zeta in *.
  rewrite dayNumber_split. unfold yearStart.
  set (d := dateOfJulianDay (julianDay n)) in *.
  unfold julianDay in *.
  destruct (Z.ltb_spec n 2299161) as [Hlt | Hge].
  - destruct Hn as [Hn | Hn]; [| lia].
    destruct (Z.ltb_spec (shiftedYear d) 0) as [_ | Hpos]; [lia |].
    exfalso. rewrite Hsy in Hpos. Z.div_mod_to_equations. lia.
  - cbv zeta in *.
    set (alpha := (4 * n - 7468865) / 146097) in *.
    assert (Hc : shiftedYear d / 100 = alpha + 4).
    { rewrite Hsy. subst alpha. Z.div_mod_to_equations. lia. }
    destruct (Z.ltb_spec (shiftedYear d) 0) as [Hneg | _].
    + exfalso. rewrite Hsy in Hneg. subst alpha. Z.div_mod_to_equations. lia.
    + rewrite Hc.
      replace ((alpha + 4) / 4) with (alpha / 4 + 1)
        by (Z.div_mod_to_equations; lia).
      lia.
Qed.

Local Close Scope Z_scope.

(** The inverse then the forward conversion give the start of the day back:
    for a number of the grid whose whole day [Z = floor (jd + 0.5)] is
    before 1721118 (1 March of year 0) or from 2299161 (15 October 1582) on,
    [dateToNumber (numberToDate jd)] is [Z - 0.5]. *)
Theorem ordinal_of_numberToDate (jd : Q) :
  onGrid jd = true ->
  Math_floor (jd + 0.5) < 1721118 \/ 2299161 <= Math_floor (jd + 0.5) ->
  dateToNumber (numberToDate jd) == Math_floor (jd + 0.5) - 0.5.
Proof.
  intros _ Hn. rewrite numberToDate_whole_day, dateToNumber_dayNumber.
  unfold Math_floor in *. set (n := Qfloor (jd + 0.5)) in *.
  assert (Hz : (n < 1721118 \/ 2299161 <= n)%Z).
  { destruct Hn as [Hn | Hn]; [left | right].
    - rewrite Zlt_Qlt. exact Hn.
    - rewrite Zle_Qle. exact Hn. }
  pose proof (dayNumber_dateOfDayNumber n Hz) as Hback.
  replace (dayNumber (dateOfDayNumber n)) with (n + 1524)%Z by lia.
  rewrite inject_Z_plus. change (inject_Z 1524) with 1524. lra.
Qed.

Lemma ordinal_of_numberToDate_witness :
  dateToNumber (numberToDate 2451545.25) == Math_floor (2451545.25 + 0.5) - 0.5.
Proof.
  apply ordinal_of_numberToDate; [vm_compute; reflexivity |].
  right. vm_compute. discriminate.
Defined.

(** On the sample of the grid the converter in binary64 returns the date of
    the exact model, whatever the time of day. *)
Lemma binary64_agrees_on_grid_sample : forallb gridAgrees gridSample = true.
Proof. vm_compute. reflexivity. Qed.

(** ** The year axis *)

(** Any number within the day of a date is read back as that date, where
    the round trip holds. *)
Lemma numberToDate_within_day (d : DateType) (f : Q) :
  validDate d -> (year d < 0 \/ 1583 <= year d)%Z -> 0 <= f -> f < 1 ->
  numberToDate (dateToNumber d + f) = d.
Proof.
  intros V Hy Hf0 Hf1.
  rewrite numberToDate_whole_day.
  assert (Hn : Qfloor (dateToNumber d + f + 0.5) = (dayNumber d - 1524)%Z).
  { apply floor_unique; rewrite dateToNumber_dayNumber;
      rewrite ?inject_Z_plus, inject_Z_minus;
      change (inject_Z 1524) with 1524; change (inject_Z 1) with 1; lra. }
  rewrite Hn, <- roundtrip_dayNumber.
  destruct Hy; [now apply roundtrip_before_year_0 | now apply roundtrip_from_1583].
Qed.

(** At any tick within the day of an event, the year axis writes the year
    and era with which [formatDate] ends the date of the event (for a valid
    date before year 0 or from 1583 on). *)
Theorem year_tick_matches_formatDate (x xDay : d3.ScaleLinear) (d : DateType) (f : Q) :
  validDate d -> (year d < 0 \/ 1583 <= year d)%Z -> 0 <= f -> f < 1 ->
  formatDate d
  = (String_of (day d) ++ " "
     ++ interpolate (array_get monthNames (month d - 1)) ++ " "
     ++ tickFormat (fst (setupAxes x xDay)) (dateToNumber d + f))%string.
Proof.
  intros V Hy Hf0 Hf1.
  unfold setupAxes. cbn [fst tickFormat].
  rewrite (numberToDate_within_day d f V Hy Hf0 Hf1).
  reflexivity.
Qed.

Lemma year_tick_matches_formatDate_witness :
  let x0 := d3.mkLinear (100, 200) (0, 850) in
  formatDate (mkDate (-44) 3 15)
  = (String_of 15 ++ " " ++ interpolate (array_get monthNames (3 - 1)) ++ " "
     ++ tickFormat (fst (setupAxes x0 x0)) (dateToNumber (mkDate (-44) 3 15) + 0.25))%string.
Proof.
  intros x0.
  apply (year_tick_matches_formatDate x0 x0 (mkDate (-44) 3 15) 0.25).
  - unfold validDate. cbn. lia.
  - left. cbn. lia.
  - discriminate.
  - reflexivity.
Defined.

(** ** The filter and the ordinals *)

Lemma withinYears_filter events startYear endYear :
  filterEvents events startYear endYear
  = filter (fun event => withinYears startYear endYear (year (date event))) events.
Proof.
  unfold filterEvents. apply filter_ext. intros event.
  apply filterEvents_keep.
Qed.

(** Filtering by year and attaching the ordinals commute: the filter reads
    the year alone, and [processEventData] leaves the date as it is. *)
Theorem filterEvents_processEventData events startYear endYear :
  filterEvents (processEventData events) startYear endYear
  = processEventData (filterEvents events startYear endYear).
Proof.
  rewrite !withinYears_filter. unfold processEventData.
  induction events as [| e rest IH]; [reflexivity |].
  cbn [map filter date].
  destruct (withinYears startYear endYear (year (date e))); cbn [map];
    now rewrite IH.
Qed.

Lemma filter_idempotent {A : Type} (p : A -> bool) (l : list A) :
  filter p (filter p l) = filter p l.
Proof.
  induction l as [| a rest IH]; [reflexivity |].
  cbn [filter]. destruct (p a) eqn:Hp; cbn [filter]; rewrite ?Hp, IH; reflexivity.
Qed.

(** The filter with no bound keeps every event; filtering twice changes
    nothing more; and when the start year is after the end year no event is
    left. *)
Theorem filterEvents_bounds :
  (forall events, filterEvents events None None = events) /\
  (forall events startYear endYear,
      filterEvents (filterEvents events startYear endYear) startYear endYear
      = filterEvents events startYear endYear) /\
  (forall events s e, (e < s)%Z -> filterEvents events (Some s) (Some e) = []).
Proof.
  split; [| split].
  - intros events. rewrite withinYears_filter. cbn.
    induction events as [| a rest IH]; [reflexivity |].
    cbn [filter]. now rewrite IH.
  - intros. rewrite !withinYears_filter. apply filter_idempotent.
  - intros events s e Hlt. rewrite withinYears_filter.
    induction events as [| a rest IH]; [reflexivity |].
    cbn [filter]. rewrite IH. unfold withinYears.
    destruct (Z.leb_spec s (year (date a))), (Z.leb_spec (year (date a)) e);
      cbn [andb]; try reflexivity; lia.
Qed.

Lemma filterEvents_bounds_witness :
  let ev y := mkEvent (mkDate y 1 1) "e"%string "c"%string "d"%string [] None in
  filterEvents [ev 10%Z; ev 500%Z] (Some 1000%Z) (Some 0%Z) = [].
Proof.
  intros ev. apply (proj2 (proj2 filterEvents_bounds)). lia.
Defined.

(** ** Linear scales *)

Lemma unit_fraction (lo hi v : Q) :
  lo < hi -> lo <= v -> v <= hi ->
  0 <= (v - lo) / (hi - lo) /\ (v - lo) / (hi - lo) <= 1.
Proof.
  intros Hlt H1 H2. split.
  - apply Qle_shift_div_l; lra.
  - apply Qle_shift_div_r; lra.
Qed.

(** A value between the ends of the domain is drawn between the ends of the
    range [0, width]; on a single-point domain it is drawn in the middle. *)
Lemma apply_within (lo hi width v : Q) :
  0 <= width -> lo <= v -> v <= hi ->
  0 <= d3.apply (d3.mkLinear (lo, hi) (0, width)) v /\
  d3.apply (d3.mkLinear (lo, hi) (0, width)) v <= width.
Proof.
  intros Hw H1 H2. unfold d3.apply, d3.bimap. cbn [d3.domain d3.range].
  destruct (Qltb_cases hi lo) as [[H _] | [_ ->]]; [lra |].
  unfold d3.normalize, d3.interpolateNumber.
  destruct (Qeq_bool (hi - lo) 0) eqn:Hz.
  - lra.
  - assert (Hlt : lo < hi).
    { apply Qnot_le_lt. intros Hle. apply not_true_iff_false in Hz. apply Hz.
      apply Qeq_bool_iff. lra. }
    destruct (unit_fraction lo hi v Hlt H1 H2) as [Ht0 Ht1].
    set (t := (v - lo) / (hi - lo)) in *. nra.
Qed.

(** The ends of the domain [d3.rescaleX] builds over the range [0, width]. *)
Lemma rescaleX_domain (lo hi width : Q) (t : d3.Transform) :
  0 < width ->
  let newX := d3.rescaleX t (d3.mkLinear (lo, hi) (0, width)) in
  fst (d3.domain newX) == lo + (hi - lo) * (d3.invertX t 0 / width) /\
  snd (d3.domain newX) == lo + (hi - lo) * (d3.invertX t width / width).
Proof.
  intros Hw. cbv zeta.
  unfold d3.rescaleX, d3.invert, d3.bimap. cbn [d3.range d3.domain fst snd].
  destruct (Qltb_cases width 0) as [[H _] | [_ ->]]; [lra |].
  unfold d3.normalize, d3.interpolateNumber.
  destruct (Qeq_bool (width - 0) 0) eqn:Hz.
  { apply Qeq_bool_iff in Hz. lra. }
  split; field; lra.
Qed.

Lemma bimap_comp (d0 d1 d0' d1' r0 r1 v : Q) :
  d0 == d0' -> d1 == d1' ->
  d3.bimap (d0, d1) (r0, r1) v == d3.bimap (d0', d1') (r0, r1) v.
Proof.
  intros H0 H1. unfold d3.bimap, d3.normalize, d3.interpolateNumber.
  rewrite (Qltb_comp d1 d1' d0 d0' H1 H0).
  destruct (Qltb d1' d0').
  - assert (Hb : Qeq_bool (d0 - d1) 0 = Qeq_bool (d0' - d1') 0)
      by (now rewrite H0, H1).
    rewrite Hb. destruct (Qeq_bool (d0' - d1') 0); [reflexivity |].
    now rewrite H0, H1.
  - assert (Hb : Qeq_bool (d1 - d0) 0 = Qeq_bool (d1' - d0') 0)
      by (now rewrite H0, H1).
    rewrite Hb. destruct (Qeq_bool (d1' - d0') 0); [reflexivity |].
    now rewrite H0, H1.
Qed.

(** ** The zoom listener *)

(** The identity transform shows the base domain, draws every value where
    the base scale draws it, and reads 100%. *)
Theorem zoomed_identity (lo hi width : Q) :
  0 < width ->
  let x := d3.mkLinear (lo, hi) (0, width) in
  let v := zoomed x lo hi d3.zoomIdentity in
  same_domain (d3.domain (newX v)) (lo, hi) /\
  (forall value, d3.apply (newX v) value == d3.apply x value) /\
  zoomLevel v = "100%"%string.
Proof.
  intros Hw. cbv zeta.
  destruct (rescaleX_domain lo hi width d3.zoomIdentity Hw) as [H0 H1].
  cbv zeta in H0, H1.
  assert (E0 : fst (d3.domain (d3.rescaleX d3.zoomIdentity
                                  (d3.mkLinear (lo, hi) (0, width)))) == lo).
  { rewrite H0. unfold d3.invertX. cbn [d3.x d3.k d3.zoomIdentity].
    field. lra. }
  assert (E1 : snd (d3.domain (d3.rescaleX d3.zoomIdentity
                                  (d3.mkLinear (lo, hi) (0, width)))) == hi).
  { rewrite H1. unfold d3.invertX. cbn [d3.x d3.k d3.zoomIdentity].
    field. lra. }
  assert (Hdom : same_domain
                   (d3.domain (newX (zoomed (d3.mkLinear (lo, hi) (0, width))
                                            lo hi d3.zoomIdentity)))
                   (lo, hi)).
  { unfold zoomed, same_domain. cbn [newX d3.domain].
    set (d := d3.domain (d3.rescaleX d3.zoomIdentity
                                     (d3.mkLinear (lo, hi) (0, width)))) in *.
    destruct d as [d0 d1]. cbn [fst snd] in *.
    destruct (Qltb_cases d0 lo) as [[Ha ->] | [Ha ->]]; [lra |].
    cbn [fst snd].
    destruct (Qltb_cases hi d1) as [[Hb ->] | [Hb ->]]; [lra |].
    cbn [fst snd]. split; assumption. }
  split; [exact Hdom | split; [| reflexivity]].
  intros value. destruct Hdom as [Hd0 Hd1].
  unfold d3.apply.
  destruct (d3.domain (newX (zoomed (d3.mkLinear (lo, hi) (0, width))
                                    lo hi d3.zoomIdentity))) as [d0 d1] eqn:Ed.
  assert (Er : d3.range (newX (zoomed (d3.mkLinear (lo, hi) (0, width))
                                      lo hi d3.zoomIdentity)) = (0, width))
    by reflexivity.
  rewrite Er. cbn [d3.domain d3.range fst snd] in *.
  now apply bimap_comp.
Qed.

Lemma zoomed_identity_witness :
  let x := d3.mkLinear (100, 200) (0, 1000) in
  same_domain (d3.domain (newX (zoomed x 100 200 d3.zoomIdentity))) (100, 200).
Proof.
  intros x.
  exact (proj1 (zoomed_identity 100 200 1000 eq_refl)).
Defined.

(** ** Point scales: the lanes of the categories *)

Lemma existsb_eqb_In (v : string) (l : list string) :
  existsb (String.eqb v) l = true <-> In v l.
Proof.
  rewrite existsb_exists. split.
  - intros (y & Hin & Heq). apply String.eqb_eq in Heq. now subst.
  - intros Hin. exists v. split; [exact Hin | apply String.eqb_refl].
Qed.

(** The domain a scale keeps: the values given, each once, in the order of
    their first occurrence. *)
Lemma unique_from (values : list string) :
  forall acc,
    let kept :=
      fold_left (fun domain v =>
                   if existsb (String.eqb v) domain then domain else domain ++ [v])
                values acc in
    (forall d, In d kept <-> In d acc \/ In d values) /\
    (NoDup acc -> NoDup kept) /\
    (NoDup (acc ++ values) -> kept = acc ++ values).
Proof.
  induction values as [| v rest IH]; intros acc; cbv zeta; cbn [fold_left].
  - split; [| split].
    + intros d. cbn. tauto.
    + trivial.
    + intros _. now rewrite app_nil_r.
  - destruct (existsb (String.eqb v) acc) eqn:He.
    + apply existsb_eqb_In in He.
      destruct (IH acc) as (Hin & Hnd & Hid). cbv zeta in *.
      split; [| split].
      * intros d. rewrite Hin. cbn. intuition (subst; auto).
      * exact Hnd.
      * intros Hno. exfalso.
        apply NoDup_remove_2 in Hno. apply Hno.
        apply in_or_app. now left.
    + assert (Hnot : ~ In v acc).
      { intros Hin. apply existsb_eqb_In in Hin. congruence. }
      destruct (IH (acc ++ [v])) as (Hin & Hnd & Hid). cbv zeta in *.
      split; [| split].
      * intros d. rewrite Hin, in_app_iff. cbn. tauto.
      * intros Hacc. apply Hnd.
        apply NoDup_app; [exact Hacc | repeat constructor; intros [] |].
        intros a Ha [<- | []]. contradiction.
      * intros Hno. rewrite <- app_assoc in Hid. cbn in Hid. now apply Hid.
Qed.

Lemma unique_In (values : list string) (d : string) :
  In d (d3_ordinal.unique values) <-> In d values.
Proof.
  unfold d3_ordinal.unique.
  destruct (unique_from values []) as (Hin & _ & _). cbv zeta in Hin.
  rewrite Hin. cbn. tauto.
Qed.

Lemma unique_NoDup_id (values : list string) :
  NoDup values -> d3_ordinal.unique values = values.
Proof.
  intros Hnd. unfold d3_ordinal.unique.
  destruct (unique_from values []) as (_ & _ & Hid). now apply Hid.
Qed.

Lemma index_of_Some (d : string) (domain : list string) (i : nat) :
  d3_ordinal.index_of d domain = Some i ->
  nth_error domain i = Some d /\ (i < List.length domain)%nat.
Proof.
  revert i. induction domain as [| v rest IH]; intros i; cbn; [discriminate |].
  destruct (String.eqb_spec v d) as [-> | Hne].
  - intros [= <-]. cbn. split; [reflexivity | lia].
  - destruct (d3_ordinal.index_of d rest) as [j |]; cbn; [| discriminate].
    intros [= <-]. destruct (IH j eq_refl) as [Hn Hl]. cbn. split; [exact Hn | lia].
Qed.

Lemma index_of_In (d : string) (domain : list string) :
  In d domain -> exists i, d3_ordinal.index_of d domain = Some i.
Proof.
  induction domain as [| v rest IH]; cbn; [intros [] |].
  intros Hin. destruct (String.eqb_spec v d) as [-> | Hne].
  - now eexists.
  - destruct Hin as [-> | Hin]; [contradiction |].
    destruct (IH Hin) as (i & ->). now eexists.
Qed.

Lemma index_of_None (d : string) (domain : list string) :
  ~ In d domain -> d3_ordinal.index_of d domain = None.
Proof.
  intros Hnot. destruct (d3_ordinal.index_of d domain) as [i |] eqn:E; [| reflexivity].
  apply index_of_Some in E. destruct E as [Hn _].
  apply nth_error_In in Hn. contradiction.
Qed.

Lemma nth_error_map_seq {A : Type} (f : nat -> A) (n : nat) :
  forall start i,
    (i < n)%nat -> nth_error (map f (seq start n)) i = Some (f (start + i)%nat).
Proof.
  induction n as [| n IH]; intros start i Hi; [lia |].
  cbn [seq map]. destruct i as [| i]; cbn [nth_error].
  - now rewrite Nat.add_0_r.
  - rewrite IH by lia. f_equal. f_equal. lia.
Qed.

Lemma range_at_small {A : Type} (l : list A) (i : nat) :
  (i < List.length l)%nat -> d3_ordinal.range_at l i = nth_error l i.
Proof.
  intros Hi. unfold d3_ordinal.range_at.
  destruct (List.length l) as [| n] eqn:E; [lia |].
  now rewrite Nat.mod_small by lia.
Qed.

(** The position of the [i]-th value of the domain, over a range in order. *)
Lemma point_position (categories : list string) (r0 r1 : Q) (d : string) (y : Q) :
  r0 <= r1 ->
  d3_ordinal.point (d3.mkPoint categories (r0, r1)) d = Some y ->
  let n := List.length (d3_ordinal.unique categories) in
  exists i : nat,
    nth_error (d3_ordinal.unique categories) i = Some d /\
    y = laneStart n r0 r1 + laneStep n r0 r1 * inject_Z (Z.of_nat i) /\
    r0 <= y /\ y <= r1 /\
    (r0 < r1 -> 0 < laneStep n r0 r1).
Proof.
  intros Hr. unfold d3_ordinal.point, d3_ordinal.point_positions.
  cbn [d3.pdomain d3.prange]. cbv zeta.
  destruct (d3_ordinal.index_of d (d3_ordinal.unique categories)) as [i |] eqn:Ei;
    [| discriminate].
  apply index_of_Some in Ei. destruct Ei as [Hnth Hlt].
  set (n := List.length (d3_ordinal.unique categories)) in *.
  destruct (Qltb_cases r1 r0) as [[H _] | [_ ->]]; [lra |].
  rewrite range_at_small by (rewrite length_map, length_seq; exact Hlt).
  rewrite nth_error_map_seq by exact Hlt. cbn [Nat.add].
  intros Hy. exists i.
  assert (Ey : y = laneStart n r0 r1 + laneStep n r0 r1 * inject_Z (Z.of_nat i))
    by (injection Hy as <-; reflexivity).
  clear Hy.
  split; [exact Hnth | split; [exact Ey |]].
  rewrite Ey. unfold laneStart.
  set (count := inject_Z (Z.of_nat n)).
  assert (HM : laneStep n r0 r1 = (r1 - r0) / Qmax 1 (count - 1 + 0 * 2))
    by reflexivity.
  set (step := laneStep n r0 r1) in *.
  set (M := Qmax 1 (count - 1 + 0 * 2)) in *.
  assert (HM1 : 1 <= M) by apply Q.le_max_l.
  assert (HMc : count - 1 <= M).
  { subst M. eapply Qle_trans; [| apply Q.le_max_r]. lra. }
  assert (Hc : 1 <= count).
  { subst count. change 1 with (inject_Z 1). rewrite <- Zle_Qle. lia. }
  assert (Hi0 : 0 <= inject_Z (Z.of_nat i)).
  { change 0 with (inject_Z 0). rewrite <- Zle_Qle. lia. }
  assert (Hi1 : inject_Z (Z.of_nat i) <= count - 1).
  { subst count. change 1 with (inject_Z 1).
    rewrite <- inject_Z_minus, <- Zle_Qle. lia. }
  assert (HsM : step * M == r1 - r0).
  { rewrite HM. field. lra. }
  assert (Hs0 : 0 <= step).
  { rewrite HM. apply Qle_shift_div_l; lra. }
  assert (Hsc : step * (count - 1) <= r1 - r0) by nra.
  assert (Hsi : step * inject_Z (Z.of_nat i) <= step * (count - 1)) by nra.
  assert (Hsi0 : 0 <= step * inject_Z (Z.of_nat i)) by nra.
  split; [lra | split; [lra |]].
  intros Hlt'. rewrite HM. apply Qlt_shift_div_l; lra.
Qed.

Lemma point_position_exists (categories : list string) (r0 r1 : Q) :
  r0 <= r1 ->
  (forall d, In d categories ->
             exists y, d3_ordinal.point (d3.mkPoint categories (r0, r1)) d = Some y /\
                       r0 <= y /\ y <= r1) /\
  (forall d, ~ In d categories ->
             d3_ordinal.point (d3.mkPoint categories (r0, r1)) d = None).
Proof.
  intros Hr. split.
  - intros d Hin.
    destruct (d3_ordinal.point (d3.mkPoint categories (r0, r1)) d) as [y |] eqn:E.
    + destruct (point_position _ _ _ _ _ Hr E) as (i & _ & _ & H0 & H1 & _).
      exists y. repeat split; assumption.
    + exfalso. unfold d3_ordinal.point, d3_ordinal.point_positions in E.
      cbn [d3.pdomain d3.prange] in E.
      apply unique_In in Hin. destruct (index_of_In _ _ Hin) as (i & Ei).
      rewrite Ei in E. apply index_of_Some in Ei. destruct Ei as [_ Hlt].
      destruct (Qltb r1 r0);
        rewrite range_at_small in E
          by (rewrite ?length_rev, length_map, length_seq; exact Hlt);
        apply nth_error_None in E;
        rewrite ?length_rev, length_map, length_seq in E; lia.
  - intros d Hnot. unfold d3_ordinal.point. cbn [d3.pdomain].
    rewrite index_of_None; [reflexivity |]. now rewrite unique_In.
Qed.

(** ** The time of day: tooltip and day axis *)

Lemma string_length_append (a b : string) :
  String.length (a ++ b) = (String.length a + String.length b)%nat.
Proof.
  induction a as [| c a IH]; cbn; [reflexivity | now rewrite IH].
Qed.

Lemma two_digits_below_100 :
  forallb (fun n => Nat.eqb (String.length (padStart2 (String_of (Z.of_nat n)))) 2)
          (seq 0 100) = true.
Proof. vm_compute. reflexivity. Qed.

(** A whole number from 0 to 99 is written on two characters. *)
Lemma padStart2_two (h : Z) :
  (0 <= h < 100)%Z -> String.length (padStart2 (String_of h)) = 2%nat.
Proof.
  intros Hh.
  pose proof two_digits_below_100 as Hall. rewrite forallb_forall in Hall.
  specialize (Hall (Z.to_nat h)).
  rewrite Z2Nat.id in Hall by lia.
  apply Nat.eqb_eq, Hall, in_seq. lia.
Qed.

(** Hours and minutes of a number of minutes that is not negative. *)
Lemma clock_of_minutes (M : Q) :
  0 <= M ->
  let h := Qfloor (M / 60) in
  let m := Qfloor (M - 60 * inject_Z h) in
  Nfloor (Ndiv (Fin M) (Fin 60)) = Fin (inject_Z h) /\
  Nfloor (Nrem (Fin M) (Fin 60)) = Fin (inject_Z m) /\
  (0 <= h)%Z /\ (0 <= m <= 59)%Z /\ (60 * h + m)%Z = Qfloor M.
Proof.
  intros HM. cbv zeta.
  assert (Hq : 0 <= M / 60) by (apply Qle_shift_div_l; lra).
  assert (Hquot : Z.quot (Qnum (M / 60)) (Zpos (Qden (M / 60))) = Qfloor (M / 60)).
  { unfold Qfloor. destruct (M / 60) as [num den] eqn:E. cbn [Qnum Qden].
    apply Z.quot_div_nonneg; [| reflexivity].
    unfold Qle in Hq. cbn in Hq. lia. }
  pose proof (Qfloor_le (M / 60)) as Hf1. pose proof (Qlt_floor (M / 60)) as Hf2.
  rewrite inject_Z_plus in Hf2. change (inject_Z 1) with 1 in Hf2.
  set (h := Qfloor (M / 60)) in *.
  assert (Hh1 : 60 * inject_Z h <= M).
  { assert (E : M == M / 60 * 60) by (field).
    rewrite E. lra. }
  assert (Hh2 : M < 60 * inject_Z h + 60).
  { assert (E : M == M / 60 * 60) by (field).
    rewrite E. lra. }
  assert (Hh0 : (0 <= h)%Z).
  { assert (Hlt : (-1 < h)%Z).
    { rewrite Zlt_Qlt. change (inject_Z (-1)) with (-1). lra. }
    lia. }
  set (m := Qfloor (M - 60 * inject_Z h)).
  pose proof (Qfloor_le (M - 60 * inject_Z h)) as Hm1.
  pose proof (Qlt_floor (M - 60 * inject_Z h)) as Hm2.
  rewrite inject_Z_plus in Hm2. change (inject_Z 1) with 1 in Hm2.
  fold m in Hm1, Hm2.
  assert (Hm : (0 <= m <= 59)%Z).
  { split.
    - assert (Hlt : (-1 < m)%Z).
      { rewrite Zlt_Qlt. change (inject_Z (-1)) with (-1). lra. }
      lia.
    - assert (Hlt : (m < 60)%Z).
      { rewrite Zlt_Qlt. change (inject_Z 60) with 60. lra. }
      lia. }
  split; [| split; [| split; [exact Hh0 | split; [exact Hm |]]]].
  - reflexivity.
  - cbn [Nrem Nfloor]. change (Qeq_bool 60 0) with false. cbv iota.
    rewrite Hquot. reflexivity.
  - symmetry. apply floor_unique.
    + rewrite inject_Z_plus, inject_Z_mult. change (inject_Z 60) with 60. lra.
    + rewrite !inject_Z_plus, inject_Z_mult. change (inject_Z 60) with 60.
      change (inject_Z 1) with 1. lra.
Qed.

Lemma clock_of_minutes_comp (M M' : Q) :
  0 <= M -> M == M' ->
  Nfloor (Ndiv (Fin M) (Fin 60)) = Nfloor (Ndiv (Fin M') (Fin 60)) /\
  Nfloor (Nrem (Fin M) (Fin 60)) = Nfloor (Nrem (Fin M') (Fin 60)).
Proof.
  intros HM E.
  assert (HM' : 0 <= M') by (rewrite <- E; exact HM).
  destruct (clock_of_minutes M HM) as (H1 & H2 & _).
  destruct (clock_of_minutes M' HM') as (H1' & H2' & _).
  cbv zeta in *. rewrite H1, H2, H1', H2'.
  assert (Eh : Qfloor (M / 60) = Qfloor (M' / 60)).
  { apply Qfloor_comp. now rewrite E. }
  rewrite Eh. split; [reflexivity |].
  f_equal. f_equal. apply Qfloor_comp. now rewrite E.
Qed.

(** The minutes in day of an event inside a domain that is not a single
    point. *)
Lemma minutesInDay_inside (lo hi q : Q) (d : EventType) :
  lo < hi -> dateValue d = Some q -> lo <= q -> q <= hi ->
  let M := (q - lo) / (hi - lo) * (CONFIG.dayEnd - CONFIG.dayStart) in
  minutesInDay (showInfo lo hi d) = Fin M /\ 0 <= M /\ M <= 1440.
Proof.
  intros Hlt Hq H1 H2. cbv zeta.
  unfold showInfo. cbn [minutesInDay]. rewrite Hq. cbn [of_optional Nsub Ndiv].
  destruct (Qeq_bool (hi - lo) 0) eqn:Hz.
  { apply Qeq_bool_iff in Hz. lra. }
  cbn [Nmul].
  destruct (unit_fraction lo hi q Hlt H1 H2) as [Ht0 Ht1].
  set (t := (q - lo) / (hi - lo)) in *.
  assert (Ec : CONFIG.dayEnd - CONFIG.dayStart == 1440) by reflexivity.
  split; [reflexivity |]. rewrite Ec.
  split; nra.
Qed.

(** For an event inside a domain that is not a single point, the tooltip
    time is a well-formed HH:MM: hours from 0 to 24 and minutes from 0 to
    59 that add up to the whole minutes in day, written on five
    characters. *)
Theorem showInfo_time_well_formed (lo hi q : Q) (d : EventType) :
  lo < hi -> dateValue d = Some q -> lo <= q -> q <= hi ->
  let info := showInfo lo hi d in
  exists (M : Q) (h m : Z),
    minutesInDay info = Fin M /\
    hours info = Fin (inject_Z h) /\ minutes info = Fin (inject_Z m) /\
    (0 <= h <= 24 /\ 0 <= m <= 59 /\ 60 * h + m = Qfloor M)%Z /\
    timeInDay info
    = (padStart2 (String_of h) ++ ":" ++ padStart2 (String_of m))%string /\
    String.length (timeInDay info) = 5%nat.
Proof.
  intros Hlt Hq H1 H2. cbv zeta.
  destruct (minutesInDay_inside lo hi q d Hlt Hq H1 H2) as (EM & HM0 & HM1).
  cbv zeta in *.
  set (M := (q - lo) / (hi - lo) * (CONFIG.dayEnd - CONFIG.dayStart)) in *.
  destruct (clock_of_minutes M HM0) as (Eh & Em & Hh0 & Hm & Hsum).
  cbv zeta in *.
  set (h := Qfloor (M / 60)) in *.
  set (m := Qfloor (M - 60 * inject_Z h)) in *.
  assert (Hfl : (Qfloor M <= 1440)%Z).
  { rewrite <- (Qfloor_Z 1440). apply Qfloor_resp_le. exact HM1. }
  assert (Hh : (h <= 24)%Z) by lia.
  assert (Ehours : hours (showInfo lo hi d) = Fin (inject_Z h)).
  { unfold showInfo in *. cbn [hours minutesInDay] in *. rewrite EM. exact Eh. }
  assert (Emins : minutes (showInfo lo hi d) = Fin (inject_Z m)).
  { unfold showInfo in *. cbn [minutes minutesInDay] in *. rewrite EM. exact Em. }
  assert (Estr : timeInDay (showInfo lo hi d)
                 = (padStart2 (String_of h) ++ ":" ++ padStart2 (String_of m))%string).
  { unfold showInfo in *. cbn [timeInDay hours minutes minutesInDay] in *.
    rewrite EM, Eh, Em. cbn [Number_toString]. now rewrite !Qfloor_Z. }
  exists M, h, m.
  split; [exact EM | split; [exact Ehours | split; [exact Emins |]]].
  split; [lia |]. split; [exact Estr |].
  rewrite Estr, !string_length_append, !padStart2_two by lia. reflexivity.
Qed.

Lemma showInfo_time_well_formed_witness :
  let d := mkEvent (mkDate 1 1 1) "e"%string "c"%string "d"%string [] (Some 133) in
  exists (M : Q) (h m : Z),
    minutesInDay (showInfo 100 200 d) = Fin M /\
    hours (showInfo 100 200 d) = Fin (inject_Z h) /\
    minutes (showInfo 100 200 d) = Fin (inject_Z m) /\
    (0 <= h <= 24 /\ 0 <= m <= 59 /\ 60 * h + m = Qfloor M)%Z /\
    timeInDay (showInfo 100 200 d)
    = (padStart2 (String_of h) ++ ":" ++ padStart2 (String_of m))%string /\
    String.length (timeInDay (showInfo 100 200 d)) = 5%nat.
Proof.
  intros d.
  apply (showInfo_time_well_formed 100 200 133 d);
    [reflexivity | reflexivity | discriminate | discriminate].
Defined.

(** The day axis and the tooltip tell the same time: at the ordinal of an
    event of the set, the top axis writes the time in day the tooltip of the
    event shows, as long as the domain is not a single point; on a
    single-point domain the axis writes 12:00 at every tick. *)
Theorem day_axis_matches_tooltip events width height categories colors scales :
  setupScales events width height categories colors = Return scales ->
  let lo := fst (d3.domain (x scales)) in
  let hi := snd (d3.domain (x scales)) in
  let xAxisDay := snd (setupAxes (x scales) (xDay scales)) in
  (~ lo == hi ->
   forall d q, In d events -> dateValue d = Some q ->
               tickFormat xAxisDay q = timeInDay (showInfo lo hi d)) /\
  (lo == hi -> forall tick, tickFormat xAxisDay tick = "12:00"%string).
Proof.
  intros Hret.
  destruct (setupScales_returns _ _ _ _ _ _ Hret)
    as (lo & hi & _ & _ & _ & Hle & Hcover & Hx & HxDay).
  rewrite Hx, HxDay. cbn [d3.domain fst snd]. cbv zeta.
  unfold setupAxes. cbn [snd tickFormat].
  split.
  - intros Hne d q Hin Hq.
    destruct (Hcover d q Hin Hq) as [H1 H2].
    assert (Hlt : lo < hi).
    { apply Qnot_le_lt. intros Hge. apply Hne. lra. }
    destruct (minutesInDay_inside lo hi q d Hlt Hq H1 H2) as (EM & HM0 & _).
    cbv zeta in *.
    set (M := (q - lo) / (hi - lo) * (CONFIG.dayEnd - CONFIG.dayStart)) in *.
    assert (Eapply : M == d3.apply (d3.mkLinear (lo, hi)
                                      (CONFIG.dayStart, CONFIG.dayEnd)) q).
    { unfold d3.apply, d3.bimap. cbn [d3.domain d3.range].
      destruct (Qltb_cases hi lo) as [[H _] | [_ ->]]; [lra |].
      unfold d3.normalize, d3.interpolateNumber.
      destruct (Qeq_bool (hi - lo) 0) eqn:Hz.
      { apply Qeq_bool_iff in Hz. lra. }
      subst M. unfold CONFIG.dayStart, CONFIG.dayEnd. field. lra. }
    destruct (clock_of_minutes_comp _ _ HM0 Eapply) as [Eh Em].
    unfold showInfo in *. cbn [timeInDay minutesInDay] in *.
    rewrite EM, <- Eh, <- Em. reflexivity.
  - intros Heq tick.
    unfold d3.apply, d3.bimap. cbn [d3.domain d3.range].
    destruct (Qltb_cases hi lo) as [[H _] | [_ ->]]; [lra |].
    unfold d3.normalize.
    assert (Hz : Qeq_bool (hi - lo) 0 = true) by (apply Qeq_bool_iff; lra).
    rewrite Hz. reflexivity.
Qed.

Lemma day_axis_matches_tooltip_witness :
  let ev v := mkEvent (mkDate 1 1 1) "e"%string "c"%string "d"%string [] (Some v) in
  let x0 := d3.mkLinear (100, 200) (0, 850) in
  let xDay0 := d3.mkLinear (100, 200) (CONFIG.dayStart, CONFIG.dayEnd) in
  tickFormat (snd (setupAxes x0 xDay0)) 133 = timeInDay (showInfo 100 200 (ev 133)).
Proof.
  intros ev x0 xDay0.
  refine (proj1 (day_axis_matches_tooltip [ev 100; ev 133; ev 200] 850 300 [] []
                   (mkScales x0 (d3.mkPoint [] (50, 300 - 50)) (d3.mkOrdinal [] [])
                             xDay0) _) _ (ev 133) 133 _ _).
  - reflexivity.
  - cbn. discriminate.
  - right. left. reflexivity.
  - reflexivity.
Defined.

(** ** Plot dimensions of the later revision *)

(** Whatever the window, the plot is at least 650 wide and 200 high, so the
    range of the x scale is not empty and the lanes keep their 50 pixels
    from the top and the bottom. *)
Theorem plotSize_at_least (w : Responsive.Window) :
  650 <= fst (Responsive.plotSize w) /\ 200 <= snd (Responsive.plotSize w) /\
  50 <= snd (Responsive.plotSize w) - 50.
Proof.
  unfold Responsive.plotSize, Responsive.calculateDimensions.
  unfold CONFIG.margin_left, CONFIG.margin_right, CONFIG.margin_top,
    CONFIG.margin_bottom.
  destruct (Responsive.container w) as [[clientWidth |] |]; cbn [fst snd];
    unfold Responsive.minWidth, Responsive.minHeight.
  - pose proof (Q.le_max_l 800 (clientWidth - 40)).
    pose proof (Q.le_max_l 300 (Responsive.innerHeight w * 0.7)).
    repeat split; lra.
  - repeat split; lra.
  - repeat split; lra.
Qed.

(** ** The colours of the manifest *)

(** Reading a key after [{ ...o, [key]: value }]. *)
Lemma object_get_set (o : list (string * string)) (key value key' : string) :
  object_get (object_set o key value) key'
  = if String.eqb key key' then Some value else object_get o key'.
Proof.
  unfold object_get, object_set.
  destruct (String.eqb_spec key key') as [<- | Hne].
  - destruct (existsb (fun p => String.eqb (fst p) key) o) eqn:He.
    + induction o as [| p rest IH]; cbn in He; [discriminate |].
      cbn [map find]. destruct (String.eqb_spec (fst p) key) as [Hp | Hp].
      * cbn [fst]. rewrite String.eqb_refl. reflexivity.
      * apply String.eqb_neq in Hp. rewrite Hp in *. cbn [orb] in He.
        now apply IH.
    + induction o as [| p rest IH]; cbn in He |- *.
      * rewrite String.eqb_refl. reflexivity.
      * apply orb_false_iff in He. destruct He as [Hp He].
        rewrite Hp. now apply IH.
  - destruct (existsb (fun p => String.eqb (fst p) key) o) eqn:He.
    + clear He. f_equal. induction o as [| p rest IH]; [reflexivity |].
      cbn [map find]. destruct (String.eqb_spec (fst p) key) as [Hp | Hp].
      * cbn [fst]. rewrite <- Hp in Hne. apply String.eqb_neq in Hne.
        rewrite Hp in Hne at 1.
        assert (Hk : String.eqb key key' = false)
          by (rewrite <- Hp; apply String.eqb_neq; apply String.eqb_neq in Hne;
              congruence).
        rewrite Hk.
        assert (Hp' : String.eqb (fst p) key' = false) by (now rewrite Hp).
        rewrite Hp'. exact IH.
      * destruct (String.eqb (fst p) key'); [reflexivity | exact IH].
    + clear He. f_equal. induction o as [| p rest IH]; cbn [app find].
      * cbn [fst]. apply String.eqb_neq in Hne. now rewrite Hne.
      * destruct (String.eqb (fst p) key'); [reflexivity | exact IH].
Qed.

Lemma colorsOf_snoc (categoriesConfig : list CategoryConfig) (c : CategoryConfig) :
  colorsOf (categoriesConfig ++ [c])
  = object_set (colorsOf categoriesConfig) (category c) (color c).
Proof.
  unfold colorsOf. now rewrite fold_left_app.
Qed.

(** [colors[key]] is the colour of the last manifest entry of that
    category, and [undefined] when the manifest has none. *)
Theorem colorsOf_last_entry (categoriesConfig : list CategoryConfig) (key : string) :
  object_get (colorsOf categoriesConfig) key
  = option_map color
      (find (fun c => String.eqb (category c) key) (rev categoriesConfig)).
Proof.
  induction categoriesConfig as [| c rest IH] using rev_ind; [reflexivity |].
  rewrite colorsOf_snoc, object_get_set, rev_app_distr. cbn [rev app find].
  destruct (String.eqb (category c) key); [reflexivity | exact IH].
Qed.

Lemma colorsOf_distinct (categoriesConfig : list CategoryConfig) (c : CategoryConfig) :
  NoDup (categoriesOf categoriesConfig) -> In c categoriesConfig ->
  object_get (colorsOf categoriesConfig) (category c) = Some (color c).
Proof.
  intros Hnd Hin. rewrite colorsOf_last_entry.
  assert (Hrev : NoDup (map category (rev categoriesConfig))).
  { rewrite map_rev. apply NoDup_rev. exact Hnd. }
  apply in_rev in Hin.
  induction (rev categoriesConfig) as [| c0 rest IH]; [contradiction |].
  cbn [find]. destruct (String.eqb_spec (category c0) (category c)) as [E | Hne].
  - destruct Hin as [-> | Hin]; [reflexivity |].
    exfalso. cbn [map] in Hrev. apply NoDup_cons_iff in Hrev.
    destruct Hrev as [Hnot _]. apply Hnot. rewrite E. now apply in_map.
  - destruct Hin as [-> | Hin]; [contradiction |].
    apply IH; [exact Hin |]. cbn [map] in Hrev. now apply NoDup_cons_iff in Hrev.
Qed.

(** ** Where and how the events are drawn *)

Lemma setupScales_fields events width height categories colors scales :
  setupScales events width height categories colors = Return scales ->
  categoryScale scales = d3.mkPoint categories (50, height - 50) /\
  colorScale scales
  = d3.mkOrdinal categories (map (object_get colors) categories).
Proof.
  unfold setupScales.
  destruct (not_ (fst (d3.extent events dateValue))
            || not_ (snd (d3.extent events dateValue))); [discriminate |].
  destruct (d3.extent events dateValue) as [[lo |] [hi |]]; try discriminate.
  intros [= <-]. split; reflexivity.
Qed.

Lemma allEvents_In (loaded : list (CategoryConfig * option (list EventType)))
    (e : EventType) :
  In e (allEvents loaded) ->
  exists config events e0,
    In (config, Some events) loaded /\ In e0 events /\
    type e = category config /\ date e = date e0 /\ dateValue e = dateValue e0.
Proof.
  unfold allEvents. rewrite in_flat_map.
  intros ([config [events |]] & Hentry & Hin); cbn [loadEvents fst snd] in Hin;
    [| contradiction].
  apply in_map_iff in Hin. destruct Hin as (e0 & <- & Hin0).
  exists config, events, e0. repeat split; assumption.
Qed.

Lemma processEventData_In (events : list EventType) (e : EventType) :
  In e (processEventData events) ->
  exists e0, In e0 events /\ type e = type e0 /\ date e = date e0 /\
             dateValue e = Some (dateToNumber (date e0)).
Proof.
  unfold processEventData. rewrite in_map_iff.
  intros (e0 & <- & Hin). exists e0. repeat split; assumption.
Qed.

Lemma month_offset_bounds (m : Z) :
  (1 <= m <= 12)%Z ->
  -23 <= (inject_Z m - 6.5) / 12 * 50 /\ (inject_Z m - 6.5) / 12 * 50 <= 23.
Proof.
  intros [H1 H2].
  rewrite Zle_Qle in H1, H2.
  change (inject_Z 1) with 1 in H1. change (inject_Z 12) with 12 in H2.
  set (q := inject_Z m) in *.
  assert (E : (q - 6.5) / 12 * 50 == (q - 6.5) * (25 # 6)) by field.
  rewrite E. split; lra.
Qed.

(** The centre [updateEvents] and [handleResize] give a circle: inside a plot
    at least 100 high when the event's day number is in the domain of [x],
    its category is a lane and its month is in 1..12. *)
Lemma centre_inside (lo hi width height v : Q) (categories : list string)
    (d : EventType) :
  0 <= width -> 100 <= height ->
  dateValue d = Some v -> lo <= v -> v <= hi ->
  In (type d) categories -> (1 <= month (date d) <= 12)%Z ->
  exists px py,
    match dateValue d with
    | Some v => Fin (d3.apply (d3.mkLinear (lo, hi) (0, width)) v)
    | None => NaN
    end = Fin px /\
    Nadd (of_optional (d3_ordinal.point (d3.mkPoint categories (50, height - 50))
                                        (type d)))
         (Fin ((inject_Z (month (date d)) - 6.5) / 12 * 50)) = Fin py /\
    0 <= px /\ px <= width /\ 0 <= py /\ py <= height.
Proof.
  intros Hw Hh Hv Hq1 Hq2 Hlane Hmonth.
  destruct (apply_within lo hi width _ Hw Hq1 Hq2) as [Hpx0 Hpx1].
  assert (Hr : 50 <= height - 50) by lra.
  destruct (proj1 (point_position_exists _ _ _ Hr) _ Hlane) as (y & Ey & Hy0 & Hy1).
  destruct (month_offset_bounds _ Hmonth) as [Ho0 Ho1].
  rewrite Hv, Ey. cbn [of_optional Nadd].
  eexists. eexists.
  split; [reflexivity | split; [reflexivity |]].
  repeat split; try assumption; lra.
Qed.

(** Every event loaded from the category files is drawn inside the plot:
    with the scales the initialization builds, the circle of an event whose
    month is in 1..12 has its centre between 0 and the plot width and
    between 0 and the plot height. *)
Theorem events_drawn_inside_plot
    (loaded : list (CategoryConfig * option (list EventType)))
    (scales : Scales) (e : EventType) :
  timelineScales loaded = Return scales ->
  In e (processEventData (allEvents loaded)) ->
  (1 <= month (date e) <= 12)%Z ->
  let circle := updateEvents (x scales) (categoryScale scales) (colorScale scales) e in
  exists px py,
    cx circle = Fin px /\ cy circle = Fin py /\
    0 <= px /\ px <= fst setupSVG /\ 0 <= py /\ py <= snd setupSVG.
Proof.
  intros Hscales Hin Hmonth. cbv zeta.
  unfold timelineScales in Hscales.
  destruct setupSVG as [width height] eqn:Esvg.
  assert (Ew : width = CONFIG.width - CONFIG.margin_left - CONFIG.margin_right)
    by (unfold setupSVG in Esvg; congruence).
  assert (Eh : height = CONFIG.height - CONFIG.margin_top - CONFIG.margin_bottom)
    by (unfold setupSVG in Esvg; congruence).
  destruct (setupScales_returns _ _ _ _ _ _ Hscales)
    as (lo & hi & _ & _ & _ & Hle & Hcover & Hx & _).
  destruct (setupScales_fields _ _ _ _ _ _ Hscales) as [Hcat _].
  destruct (processEventData_In _ _ Hin) as (e1 & Hin1 & Ht1 & Hd1 & Hv1).
  destruct (allEvents_In _ _ Hin1) as (config & events & e0 & Hentry & _ & Ht0 & _).
  destruct (Hcover e _ Hin Hv1) as [Hq1 Hq2].
  assert (Hlane : In (type e) (categoriesOf (map fst loaded))).
  { rewrite Ht1, Ht0. unfold categoriesOf. rewrite map_map.
    apply in_map_iff. exists (config, Some events). split; [reflexivity | exact Hentry]. }
  unfold updateEvents. cbn [cx cy fst snd]. rewrite Hx, Hcat.
  apply (centre_inside lo hi width height (dateToNumber (date e1)) _ e);
    try assumption.
  - rewrite Ew. discriminate.
  - rewrite Eh. discriminate.
Qed.

Lemma events_drawn_inside_plot_witness :
  let ev y m d v := mkEvent (mkDate y m d) "e"%string "c"%string "d"%string [] v in
  let loaded :=
    [(mkConfig "war" "red" "war.json", Some [ev 1066 10 14 None]);
     (mkConfig "art" "blue" "art.json", Some [ev 1503 6 1 None])]%string%Z in
  let e := mkEvent (mkDate 1066 10 14) "e"%string "war"%string "d"%string []
             (Some (dateToNumber (mkDate 1066 10 14))) in
  exists scales px py,
    timelineScales loaded = Return scales /\
    cx (updateEvents (x scales) (categoryScale scales) (colorScale scales) e) = Fin px /\
    cy (updateEvents (x scales) (categoryScale scales) (colorScale scales) e) = Fin py /\
    0 <= px /\ px <= fst setupSVG /\ 0 <= py /\ py <= snd setupSVG.
Proof.
  intros ev loaded e.
  assert (H : exists scales, timelineScales loaded = Return scales)
    by (vm_compute; eexists; reflexivity).
  destruct H as [scales E].
  destruct (events_drawn_inside_plot loaded scales e E
              ltac:(left; reflexivity) ltac:(cbn; lia)) as (px & py & H).
  exists scales, px, py. split; [exact E | exact H].
Defined.

(** When the categories of the manifest are distinct, every loaded event is
    filled with the colour of its manifest entry. *)
Theorem events_filled_with_manifest_colour
    (loaded : list (CategoryConfig * option (list EventType)))
    (scales : Scales) (config : CategoryConfig) (events : option (list EventType))
    (e : EventType) :
  timelineScales loaded = Return scales ->
  NoDup (categoriesOf (map fst loaded)) ->
  In (config, events) loaded ->
  In e (processEventData (loadEvents config events)) ->
  fill (updateEvents (x scales) (categoryScale scales) (colorScale scales) e)
  = Some (color config).
Proof.
  intros Hscales Hnd Hentry Hin.
  unfold timelineScales in Hscales. destruct setupSVG as [width height].
  destruct (setupScales_fields _ _ _ _ _ _ Hscales) as [_ Hcol].
  destruct (processEventData_In _ _ Hin) as (e1 & Hin1 & Ht1 & _).
  assert (Ht : type e = category config).
  { rewrite Ht1. destruct events as [events |]; cbn [loadEvents] in Hin1;
      [| contradiction].
    apply in_map_iff in Hin1. destruct Hin1 as (e0 & <- & _). reflexivity. }
  assert (Hcfg : In config (map fst loaded)).
  { apply in_map_iff. exists (config, events). split; [reflexivity | exact Hentry]. }
  unfold updateEvents. cbn [fill]. rewrite Hcol, Ht.
  unfold d3_ordinal.ordinal. cbn [d3.odomain d3.orange].
  rewrite (unique_NoDup_id _ Hnd).
  assert (Hin' : In (category config) (categoriesOf (map fst loaded))).
  { unfold categoriesOf. now apply in_map. }
  destruct (index_of_In _ _ Hin') as (i & Ei). rewrite Ei. cbn [fst].
  apply index_of_Some in Ei. destruct Ei as [Hnth Hlt].
  rewrite range_at_small by (now rewrite length_map).
  rewrite (map_nth_error _ _ _ Hnth).
  now apply colorsOf_distinct.
Qed.

Lemma events_filled_with_manifest_colour_witness :
  let ev y m d := mkEvent (mkDate y m d) "e"%string "c"%string "d"%string [] None in
  let war := mkConfig "war" "red" "war.json" in
  let art := mkConfig "art" "blue" "art.json" in
  let loaded := [(war, Some [ev 1066 10 14]); (art, Some [ev 1503 6 1])]%Z in
  let e := mkEvent (mkDate 1503 6 1) "e"%string "art"%string "d"%string []
             (Some (dateToNumber (mkDate 1503 6 1))) in
  exists scales,
    timelineScales loaded = Return scales /\
    fill (updateEvents (x scales) (categoryScale scales) (colorScale scales) e)
    = Some "blue"%string.
Proof.
  intros ev war art loaded e.
  assert (H : exists scales, timelineScales loaded = Return scales)
    by (vm_compute; eexists; reflexivity).
  destruct H as [scales E].
  exists scales. split; [exact E |].
  apply (events_filled_with_manifest_colour loaded scales art (Some [ev 1503 6 1]%Z) e E).
  - repeat constructor; cbn; intuition discriminate.
  - right. left. reflexivity.
  - left. reflexivity.
Defined.

(** ** Resizing *)

Lemma plotSize_bounds (w : Responsive.Window) :
  650 <= fst (Responsive.plotSize w) /\ 200 <= snd (Responsive.plotSize w).
Proof.
  unfold Responsive.plotSize, Responsive.calculateDimensions.
  unfold CONFIG.margin_left, CONFIG.margin_right, CONFIG.margin_top,
    CONFIG.margin_bottom.
  destruct (Responsive.container w) as [[clientWidth |] |]; cbn [fst snd];
    unfold Responsive.minWidth, Responsive.minHeight.
  - pose proof (Q.le_max_l 800 (clientWidth - 40)).
    pose proof (Q.le_max_l 300 (Responsive.innerHeight w * 0.7)).
    split; lra.
  - split; lra.
  - split; lra.
Qed.

(** Whatever the size of the window, a resize leaves every circle inside the
    plot it returns: when the events have their day number in the domain of
    [x], their category among the lanes and their month in 1..12, each centre
    [handleResize] sets lies between 0 and the new plot width and between 0
    and the new plot height. *)
Theorem resize_keeps_events_inside (w : Responsive.Window) (x : d3.ScaleLinear)
    (categoryScale : d3.ScalePoint) (zoom : d3.ZoomBehavior)
    (events : list EventType) :
  (forall d, In d events ->
             (exists v, dateValue d = Some v /\
                        fst (d3.domain x) <= v /\ v <= snd (d3.domain x)) /\
             In (type d) (d3.pdomain categoryScale) /\
             (1 <= month (date d) <= 12)%Z) ->
  let resized := handleResize w x categoryScale zoom events in
  forall centre, In centre (centres resized) ->
    exists px py,
      centre = (Fin px, Fin py) /\
      0 <= px /\ px <= plotWidth resized /\ 0 <= py /\ py <= plotHeight resized.
Proof.
  intros Hevents resized centre Hin. subst resized.
  pose proof (plotSize_bounds w) as [Hw Hh].
  unfold handleResize in *. unfold Responsive.plotSize in Hw, Hh.
  destruct (Responsive.calculateDimensions w) as [width height].
  cbn [fst snd] in Hw, Hh. cbn [centres plotWidth plotHeight] in *.
  apply in_map_iff in Hin. destruct Hin as (d & <- & Hd).
  destruct (Hevents d Hd) as ((v & Hv & Hq1 & Hq2) & Hlane & Hmonth).
  destruct (d3.domain x) as [lo hi]. cbn [fst snd] in Hq1, Hq2.
  set (W := width - CONFIG.margin_left - CONFIG.margin_right) in *.
  set (H := height - CONFIG.margin_top - CONFIG.margin_bottom) in *.
  destruct (centre_inside lo hi W H v (d3.pdomain categoryScale) d)
    as (px & py & Epx & Epy & Hb); try assumption; try lra.
  exists px, py. split; [| exact Hb].
  cbv zeta. rewrite Epx, Epy. reflexivity.
Qed.

Lemma resize_keeps_events_inside_witness :
  let e := mkEvent (mkDate 1503 6 1) "e"%string "art"%string "d"%string []
             (Some 150) in
  let w := Responsive.mkWindow (Some (Some 1200)) 900 in
  let resized :=
    handleResize w (d3.mkLinear (100, 200) (0, 850))
      (d3.mkPoint ["war"; "art"]%string (50, 250)) (createZoom 850) [e] in
  exists px py,
    nth 0 (centres resized) (NaN, NaN) = (Fin px, Fin py) /\
    0 <= px /\ px <= plotWidth resized /\ 0 <= py /\ py <= plotHeight resized.
Proof.
  intros e w.
  apply (resize_keeps_events_inside w (d3.mkLinear (100, 200) (0, 850))
           (d3.mkPoint ["war"; "art"]%string (50, 250)) (createZoom 850) [e]).
  - intros d [<- | []]. split; [| split].
    + exists 150. cbn [fst snd d3.domain]. repeat split; discriminate.
    + right. left. reflexivity.
    + cbn. lia.
  - left. reflexivity.
Defined.
